(** * libstodium: the ByteBuffer bridge of [jni/sodium_jni_buffer.c]

    A shallow embedding of the buffer layer ([stodium_get_buffer],
    [stodium_release_output], [stodium_release_input]), of the two
    initialisation entry points and of the three primitive wrappers,
    over an executable model of the part of the JNI runtime they call.

    Conventions.
    - Native addresses, Java references, bytes and C integers are [Z];
      address [0] is [NULL], reference [0] is Java's [null].
    - A [jobject] argument that designates a [java.nio.ByteBuffer] is an
      [option ByteBuffer]: [None] is a [NULL] handle.
    - C code runs in the state monad [M] over a [world]: the Java heap,
      native memory, the table of live pinned copies, the pending
      exception flag and libsodium's initialisation flag.
    - Two logs are ghost state.  [jni_log] records every JNI function the
      C code calls; [calls] records every entry into one of the three
      buffer functions and every call of an external primitive. *)

From stdpp Require Import gmap list strings.

Open Scope Z_scope.

(** ** Machine integers *)

(** Conversion to an unsigned integer type of [bits] bits. *)
Definition wrap_unsigned (bits v : Z) : Z := v mod 2 ^ bits.

(** Conversion to a signed two's complement type of [bits] bits. *)
Definition wrap_signed (bits v : Z) : Z :=
  (v + 2 ^ (bits - 1)) mod 2 ^ bits - 2 ^ (bits - 1).

(** [(jint) e]: [jint] is a signed 32-bit integer. *)
Definition to_jint (v : Z) : Z := wrap_signed 32 v.

(** Values of the Java type [int] that are not negative. *)
Definition java_nat (v : Z) : Prop := 0 <= v < 2 ^ 31.

(** Values of the C type [int]. *)
Definition c_int (v : Z) : Prop := - 2 ^ 31 <= v < 2 ^ 31.

(** ** Java objects seen through JNI *)

(** What the runtime reports about one [java.nio.ByteBuffer].  A method
    that throws is [None]. *)
Record ByteBuffer := {
  direct_address : Z;       (* GetDirectBufferAddress; 0 when not direct *)
  direct_capacity : Z;      (* GetDirectBufferCapacity; -1 when not direct *)
  bb_array : option Z;      (* array() *)
  bb_arrayOffset : option Z;(* arrayOffset() *)
  bb_remaining : option Z   (* remaining() *)
}.

Definition jobject : Type := option ByteBuffer.

(** A direct buffer: [array()] and [arrayOffset()] throw
    [UnsupportedOperationException]. *)
Definition direct_buffer (address capacity : Z) : ByteBuffer :=
  {| direct_address := address; direct_capacity := capacity;
     bb_array := None; bb_arrayOffset := None;
     bb_remaining := Some capacity |}.

(** A heap buffer over the accessible array [hb]. *)
Definition heap_buffer (hb off rem : Z) : ByteBuffer :=
  {| direct_address := 0; direct_capacity := -1;
     bb_array := Some hb; bb_arrayOffset := Some off;
     bb_remaining := Some rem |}.

(** A read-only heap buffer: [array()] and [arrayOffset()] throw
    [ReadOnlyBufferException]. *)
Definition read_only_buffer (rem : Z) : ByteBuffer :=
  {| direct_address := 0; direct_capacity := -1;
     bb_array := None; bb_arrayOffset := None;
     bb_remaining := Some rem |}.

(** The method identifiers cached by [JNI_OnLoad]. *)
Inductive jmethodID := MID_array | MID_arrayOffset | MID_remaining.

Definition stodium_g_byte_buffer_method_array : jmethodID := MID_array.
Definition stodium_g_byte_buffer_method_array_offset : jmethodID :=
  MID_arrayOffset.
Definition stodium_g_byte_buffer_method_remaining : jmethodID :=
  MID_remaining.

Definition invoke (bb : ByteBuffer) (m : jmethodID) : option Z :=
  match m with
  | MID_array => bb_array bb
  | MID_arrayOffset => bb_arrayOffset bb
  | MID_remaining => bb_remaining bb
  end.

(** The value a [Call<Type>Method] hands back: the method's result, or
    [0] when the method threw. *)
Definition jvalue (r : option Z) : Z := default 0 r.

(** Release modes of [Release<Type>ArrayElements]. *)
Definition JNI_COMMIT : Z := 1.
Definition JNI_ABORT : Z := 2.

(** ** The world *)

Inductive jni_call :=
| JGetDirectBufferAddress (bb : ByteBuffer)
| JGetDirectBufferCapacity (bb : ByteBuffer)
| JCallObjectMethod (bb : ByteBuffer) (m : jmethodID)
| JCallIntMethod (bb : ByteBuffer) (m : jmethodID)
| JGetByteArrayElements (array : Z)
| JReleaseByteArrayElements (array elems mode : Z).

Inductive call :=
| Call_get_buffer (jbuffer : jobject)
| Call_release_output (jbuffer : jobject)
| Call_release_input (jbuffer : jobject)
| Call_primitive (status : Z).

Record world := World {
  arrays : gmap Z (list Z);   (* Java byte[] objects, by reference *)
  pins : gmap Z (Z * nat);    (* live pinned copies: address -> array, length *)
  native : gmap Z Z;          (* native memory, byte by byte *)
  brk : Z;                    (* where the next pinned copy is placed *)
  pin_budget : nat;           (* pin requests the VM can still serve *)
  pending : bool;             (* a Java exception is pending *)
  jni_log : list jni_call;
  calls : list call;
  sodium_initialized : bool;  (* libsodium's process-wide flag *)
  sodium_env_ok : bool        (* libsodium's one-time setup can succeed *)
}.

Definition set_arrays (f : gmap Z (list Z) → gmap Z (list Z)) (w : world) :=
  World (f (arrays w)) (pins w) (native w) (brk w) (pin_budget w)
    (pending w) (jni_log w) (calls w) (sodium_initialized w) (sodium_env_ok w).
Definition set_pins (f : gmap Z (Z * nat) → gmap Z (Z * nat)) (w : world) :=
  World (arrays w) (f (pins w)) (native w) (brk w) (pin_budget w)
    (pending w) (jni_log w) (calls w) (sodium_initialized w) (sodium_env_ok w).
Definition set_native (f : gmap Z Z → gmap Z Z) (w : world) :=
  World (arrays w) (pins w) (f (native w)) (brk w) (pin_budget w)
    (pending w) (jni_log w) (calls w) (sodium_initialized w) (sodium_env_ok w).
Definition set_brk (f : Z → Z) (w : world) :=
  World (arrays w) (pins w) (native w) (f (brk w)) (pin_budget w)
    (pending w) (jni_log w) (calls w) (sodium_initialized w) (sodium_env_ok w).
Definition set_pin_budget (f : nat → nat) (w : world) :=
  World (arrays w) (pins w) (native w) (brk w) (f (pin_budget w))
    (pending w) (jni_log w) (calls w) (sodium_initialized w) (sodium_env_ok w).
Definition set_pending (f : bool → bool) (w : world) :=
  World (arrays w) (pins w) (native w) (brk w) (pin_budget w)
    (f (pending w)) (jni_log w) (calls w) (sodium_initialized w)
    (sodium_env_ok w).
Definition set_jni_log (f : list jni_call → list jni_call) (w : world) :=
  World (arrays w) (pins w) (native w) (brk w) (pin_budget w)
    (pending w) (f (jni_log w)) (calls w) (sodium_initialized w)
    (sodium_env_ok w).
Definition set_calls (f : list call → list call) (w : world) :=
  World (arrays w) (pins w) (native w) (brk w) (pin_budget w)
    (pending w) (jni_log w) (f (calls w)) (sodium_initialized w)
    (sodium_env_ok w).
Definition set_sodium_initialized (f : bool → bool) (w : world) :=
  World (arrays w) (pins w) (native w) (brk w) (pin_budget w)
    (pending w) (jni_log w) (calls w) (f (sodium_initialized w))
    (sodium_env_ok w).

(** The world without the ghost log of buffer-function calls. *)
Definition forget_calls (w : world) : world := set_calls (λ _, []) w.

(** ** The state monad *)

Definition M (A : Type) : Type := world → A * world.

Global Instance M_ret : MRet M := λ A a w, (a, w).
Global Instance M_bind : MBind M :=
  λ A B f m w, let '(a, w') := m w in f a w'.

Definition modify (f : world → world) : M unit := λ w, (tt, f w).
Definition jni (c : jni_call) : M unit :=
  modify (set_jni_log (λ l, l ++ [c])).
Definition enter (c : call) : M unit :=
  modify (set_calls (λ l, l ++ [c])).
Definition throw : M unit := modify (set_pending (λ _, true)).

(** ** Native memory *)

Fixpoint write_bytes (a : Z) (bs : list Z) (m : gmap Z Z) : gmap Z Z :=
  match bs with
  | [] => m
  | b :: bs' => <[a := b]> (write_bytes (a + 1) bs' m)
  end.

Fixpoint read_bytes (m : gmap Z Z) (a : Z) (n : nat) : list Z :=
  match n with
  | O => []
  | S n' => default 0 (m !! a) :: read_bytes m (a + 1) n'
  end.

Fixpoint free_bytes (a : Z) (n : nat) (m : gmap Z Z) : gmap Z Z :=
  match n with
  | O => m
  | S n' => delete a (free_bytes (a + 1) n' m)
  end.

(** A function of the external primitives library, applied to its pointer
    arguments: it reads and writes native memory and returns an [int]. *)
Definition native_fn : Type := gmap Z Z → gmap Z Z * Z.

Definition extern (f : native_fn) : M Z := λ w,
  let '(m', status) := f (native w) in
  (status, set_calls (λ l, l ++ [Call_primitive status])
             (set_native (λ _, m') w)).

(** ** The JNI functions the bridge calls

    [Get<Type>ArrayElements] is modelled in its copying form, the one the
    bridge has to be correct for: the elements are copied to a fresh native
    region, and [Release<Type>ArrayElements] copies all of them back (mode
    [0] or [JNI_COMMIT]) and frees the region (mode [0] or [JNI_ABORT]).
    A request fails with [NULL] and a pending [OutOfMemoryError] when the
    VM has no budget left; a reference that is no [byte[]] cannot be pinned
    and yields [NULL]; releasing an address that is not a live pinned copy
    of the given array does nothing.  JNI functions do not look at the
    pending exception. *)

Definition GetDirectBufferAddress (bb : ByteBuffer) : M Z :=
  jni (JGetDirectBufferAddress bb);;
  mret (direct_address bb).

Definition GetDirectBufferCapacity (bb : ByteBuffer) : M Z :=
  jni (JGetDirectBufferCapacity bb);;
  mret (direct_capacity bb).

Definition CallObjectMethod (bb : ByteBuffer) (m : jmethodID) : M Z :=
  jni (JCallObjectMethod bb m);;
  match invoke bb m with
  | Some r => mret r
  | None => throw;; mret 0
  end.

Definition CallIntMethod (bb : ByteBuffer) (m : jmethodID) : M Z :=
  jni (JCallIntMethod bb m);;
  match invoke bb m with
  | Some r => mret (to_jint r)
  | None => throw;; mret 0
  end.

Definition GetByteArrayElements (array : Z) : M Z := λ w,
  let w := set_jni_log (λ l, l ++ [JGetByteArrayElements array]) w in
  match arrays w !! array with
  | None => (0, w)
  | Some bs =>
    match pin_budget w with
    | O => (0, set_pending (λ _, true) w)
    | S k =>
      let a := brk w in
      (a, set_pin_budget (λ _, k)
            (set_brk (λ b, b + Z.of_nat (length bs) + 1)
               (set_pins (insert a (array, length bs))
                  (set_native (write_bytes a bs) w))))
    end
  end.

Definition ReleaseByteArrayElements (array elems mode : Z) : M unit := λ w,
  let w := set_jni_log
             (λ l, l ++ [JReleaseByteArrayElements array elems mode]) w in
  match pins w !! elems with
  | Some (owner, n) =>
    if bool_decide (owner = array) then
      let w1 :=
        if bool_decide (mode = JNI_ABORT) then w
        else set_arrays (insert array (read_bytes (native w) elems n)) w in
      let w2 :=
        if bool_decide (mode = JNI_COMMIT) then w1
        else set_native (free_bytes elems n) (set_pins (delete elems) w1) in
      (tt, w2)
    else (tt, w)
  | None => (tt, w)
  end.

(** ** libsodium's [sodium_init]

    External.  Its documented contract: [0] on success, [-1] on failure,
    [1] when the library is already initialised. *)
Definition sodium_init : M Z := λ w,
  if sodium_initialized w then (1, w)
  else if sodium_env_ok w then (0, set_sodium_initialized (λ _, true) w)
  else (-1, w).

(** ** Sample data: worlds, handles and stand-ins for the primitives *)

(** A primitive that fails without writing. *)
Definition prim_fail : native_fn := λ m, (m, -1).

(** A primitive that writes a 32-byte result at [dst] and succeeds. *)
Definition prim_fill (dst : Z) : native_fn :=
  λ m, (write_bytes dst (replicate 32 170) m, 0).

(** A fresh process: no arrays, nothing pinned, libsodium not set up. *)
Definition world0 : world :=
  World ∅ ∅ ∅ 4096 8 false [] [] false true.

(** One 40-byte array of zeroes at reference [1]. *)
Definition world_heap : world :=
  World {[ 1 := replicate 40 0 ]} ∅ ∅ 4096 8 false [] [] false true.

(** The same Java heap in a VM that cannot serve any pin request. *)
Definition world_oom : world :=
  World {[ 1 := replicate 40 0 ]} ∅ ∅ 4096 0 false [] [] false true.

(** Array [1] is [10; 20; 30; 40]; three bytes were written to its pinned
    copy at address [100], from index [1] on. *)
Definition world_pinned : world :=
  World {[ 1 := [10; 20; 30; 40] ]} {[ 100 := (1, 4%nat) ]}
    {[ 100 := 10; 101 := 99; 102 := 77; 103 := 55 ]}
    4096 8 false [] [] false true.

(** libsodium already initialised. *)
Definition world_ready : world :=
  World ∅ ∅ ∅ 4096 8 false [] [] true true.

(** ** The C code *)

Record stodium_buffer := {
  content : Z;
  offset : Z;
  capacity : Z;
  is_direct : bool;
  backing_array : Z  (* only defined if the buffer was not direct *)
}.

Definition set_content (v : Z) (b : stodium_buffer) : stodium_buffer :=
  {| content := v; offset := offset b; capacity := capacity b;
     is_direct := is_direct b; backing_array := backing_array b |}.
Definition set_offset (v : Z) (b : stodium_buffer) : stodium_buffer :=
  {| content := content b; offset := v; capacity := capacity b;
     is_direct := is_direct b; backing_array := backing_array b |}.
Definition set_capacity (v : Z) (b : stodium_buffer) : stodium_buffer :=
  {| content := content b; offset := offset b; capacity := v;
     is_direct := is_direct b; backing_array := backing_array b |}.
Definition set_is_direct (v : bool) (b : stodium_buffer) : stodium_buffer :=
  {| content := content b; offset := offset b; capacity := capacity b;
     is_direct := v; backing_array := backing_array b |}.
Definition set_backing_array (v : Z) (b : stodium_buffer) : stodium_buffer :=
  {| content := content b; offset := offset b; capacity := capacity b;
     is_direct := is_direct b; backing_array := v |}.

(** Arbitrary contents for a struct that was not assigned yet. *)
Definition junk : stodium_buffer :=
  {| content := 7; offset := 7; capacity := 7; is_direct := false;
     backing_array := 7 |}.

(** The view of the 2-byte window at offset [1] of array [1], pinned at
    address [100]. *)
Definition view_pinned : stodium_buffer :=
  {| content := 100; offset := 1; capacity := 2; is_direct := false;
     backing_array := 1 |}.

(** [AS_INPUT] and [AS_OUTPUT]: the address of the first byte of the view.
    The sum is taken in [Z], without the wrap of pointer arithmetic; the two
    differ only for an offset that came from a negative array offset, which
    a JVM does not report. *)
Definition AS_INPUT (buffer : stodium_buffer) : Z :=
  content buffer + offset buffer.
Definition AS_OUTPUT (buffer : stodium_buffer) : Z :=
  content buffer + offset buffer.

Section Bridge.

(** The width of [size_t] on the target. *)
Variable size_bits : Z.

(** [(size_t) e]. *)
Definition to_size_t (v : Z) : Z := wrap_unsigned size_bits v.

(** [dst] is the caller's struct: fields the function does not assign keep
    the value they had. *)
Definition stodium_get_buffer (dst : stodium_buffer) (jbuffer : jobject)
  : M stodium_buffer :=
  enter (Call_get_buffer jbuffer);;
  match jbuffer with
  | None =>
    let dst := set_content 0 dst in
    let dst := set_offset 0 dst in
    let dst := set_capacity 0 dst in
    let dst := set_is_direct true dst in
    mret dst
  | Some bb =>
    address ← GetDirectBufferAddress bb;
    let dst := set_content address dst in
    if bool_decide (content dst ≠ 0) then
      cap ← GetDirectBufferCapacity bb;
      let dst := set_offset 0 dst in
      let dst := set_capacity (to_size_t cap) dst in
      let dst := set_is_direct true dst in
      mret dst
    else
      array ← CallObjectMethod bb stodium_g_byte_buffer_method_array;
      let dst := set_backing_array array dst in
      elems ← GetByteArrayElements (backing_array dst);
      let dst := set_content elems dst in
      off ← CallIntMethod bb stodium_g_byte_buffer_method_array_offset;
      let dst := set_offset (to_size_t off) dst in
      rem ← CallIntMethod bb stodium_g_byte_buffer_method_remaining;
      let dst := set_capacity (to_size_t rem) dst in
      let dst := set_is_direct false dst in
      mret dst
  end.

Definition stodium_release_output (output : jobject)
  (buffer : stodium_buffer) : M unit :=
  enter (Call_release_output output);;
  if is_direct buffer then mret tt
  else ReleaseByteArrayElements (backing_array buffer) (content buffer) 0.

Definition stodium_release_input (output : jobject)
  (buffer : stodium_buffer) : M unit :=
  enter (Call_release_input output);;
  if is_direct buffer || bool_decide (content buffer = 0) then mret tt
  else
    ReleaseByteArrayElements (backing_array buffer) (content buffer)
      JNI_ABORT.

Definition stodium_1init : M Z :=
  r ← sodium_init;
  if bool_decide (r = -1) then mret (-1) else mret 0.

Definition sodium_1init : M Z :=
  r ← sodium_init;
  mret (to_jint r).

(** The contents of an automatic [stodium_buffer] before it is assigned. *)
Variable uninit : stodium_buffer.

(** The three external primitives, applied to their pointer arguments. *)
Variable crypto_core_hsalsa20 : Z → Z → Z → Z → native_fn.
Variable crypto_scalarmult_curve25519 : Z → Z → Z → native_fn.
Variable crypto_scalarmult_curve25519_base : Z → Z → native_fn.

Definition crypto_1core_1hsalsa20 (dst src key constant : jobject) : M Z :=
  dst_buffer ← stodium_get_buffer uninit dst;
  src_buffer ← stodium_get_buffer uninit src;
  key_buffer ← stodium_get_buffer uninit key;
  const_buffer ← stodium_get_buffer uninit constant;
  status ← extern (crypto_core_hsalsa20
                     (AS_OUTPUT dst_buffer) (AS_INPUT src_buffer)
                     (AS_INPUT key_buffer) (AS_INPUT const_buffer));
  let result := to_jint status in
  stodium_release_output dst dst_buffer;;
  stodium_release_input src src_buffer;;
  stodium_release_input key key_buffer;;
  stodium_release_input constant const_buffer;;
  mret result.

Definition crypto_1scalarmult_1curve25519 (dst priv pub : jobject) : M Z :=
  dst_buffer ← stodium_get_buffer uninit dst;
  priv_buffer ← stodium_get_buffer uninit priv;
  pub_buffer ← stodium_get_buffer uninit pub;
  status ← extern (crypto_scalarmult_curve25519
                     (AS_OUTPUT dst_buffer) (AS_INPUT priv_buffer)
                     (AS_INPUT pub_buffer));
  let result := to_jint status in
  stodium_release_output dst dst_buffer;;
  stodium_release_input priv priv_buffer;;
  stodium_release_input pub pub_buffer;;
  mret result.

Definition crypto_1scalarmult_1curve25519_1base (dst src : jobject) : M Z :=
  dst_buffer ← stodium_get_buffer uninit dst;
  src_buffer ← stodium_get_buffer uninit src;
  status ← extern (crypto_scalarmult_curve25519_base
                     (AS_OUTPUT dst_buffer) (AS_INPUT src_buffer));
  let result := to_jint status in
  stodium_release_output dst dst_buffer;;
  stodium_release_input src src_buffer;;
  mret result.

(** ** Reading the call log *)

Definition is_get (c : call) : bool :=
  match c with Call_get_buffer _ => true | _ => false end.
Definition is_release_output (c : call) : bool :=
  match c with Call_release_output _ => true | _ => false end.
Definition is_release_input (c : call) : bool :=
  match c with Call_release_input _ => true | _ => false end.
Definition is_primitive (c : call) : bool :=
  match c with Call_primitive _ => true | _ => false end.

(** How many calls of a log satisfy [p]. *)
Fixpoint count (p : call → bool) (tr : list call) : nat :=
  match tr with
  | [] => 0%nat
  | c :: tr' => ((if p c then 1 else 0) + count p tr')%nat
  end.

(** The handles resolved in a log, and the handles released in it. *)
Fixpoint resolved (tr : list call) : list jobject :=
  match tr with
  | [] => []
  | Call_get_buffer h :: tr' => h :: resolved tr'
  | _ :: tr' => resolved tr'
  end.

Fixpoint released (tr : list call) : list jobject :=
  match tr with
  | [] => []
  | Call_release_output h :: tr' => h :: released tr'
  | Call_release_input h :: tr' => h :: released tr'
  | _ :: tr' => released tr'
  end.

(** No input release comes before an output release. *)
Fixpoint outputs_before_inputs (tr : list call) : bool :=
  match tr with
  | [] => true
  | Call_release_input _ :: tr' =>
    forallb (λ c, negb (is_release_output c)) tr'
  | _ :: tr' => outputs_before_inputs tr'
  end.

(** The calls one invocation of a wrapper makes, in order: one resolution
    per handle, the primitive, the release of the output, the releases of
    the inputs. *)
Definition invocation (out : jobject) (ins : list jobject) (status : Z)
  : list call :=
  Call_get_buffer out :: map Call_get_buffer ins
  ++ Call_primitive status
  :: Call_release_output out :: map Call_release_input ins.

(** Every resolution is matched by a release: as many calls of
    [stodium_get_buffer] as of the two release functions together, and the
    handles released are the handles resolved. *)
Definition balanced (tr : list call) : Prop :=
  count is_get tr =
    (count is_release_input tr + count is_release_output tr)%nat ∧
  resolved tr = released tr.

(** What Java guarantees of a buffer: capacity, array offset and remaining
    length are [int]s that are not negative. *)
Definition well_formed (bb : ByteBuffer) : Prop :=
  (direct_address bb ≠ 0 → java_nat (direct_capacity bb)) ∧
  (∀ v, bb_arrayOffset bb = Some v → java_nat v) ∧
  (∀ v, bb_remaining bb = Some v → java_nat v).

(** The runtime cannot produce the backing array of [bb], or cannot read
    its array offset or its remaining length: the buffer is not direct and
    one of the three methods throws. *)
Definition throws (bb : ByteBuffer) : Prop :=
  direct_address bb = 0 ∧
  (bb_array bb = None ∨ bb_arrayOffset bb = None ∨ bb_remaining bb = None).



(** Running [m] from [w] appends to the call log a trace that satisfies
    [P]. *)
Definition appends {A} (m : M A) (w : world) (P : list call → Prop) : Prop :=
  ∃ tr, calls (m w).2 = calls w ++ tr ∧ P tr.

(** The allocator's invariant: [NULL] is never handed out, and every live
    pinned copy lies below the address of the next one. *)
Definition pins_in_range (w : world) : Prop :=
  0 < brk w ∧ ∀ a, 0 < a < brk w ∨ pins w !! a = None.

(** What [ReleaseByteArrayElements], called for the view [b] with mode [0]
    or [JNI_ABORT], does to the table of pinned copies. *)
Definition unpin (b : stodium_buffer) (P : gmap Z (Z * nat))
  : gmap Z (Z * nat) :=
  if is_direct b then P
  else match P !! content b with
       | Some (owner, n) =>
         if bool_decide (owner = backing_array b)
         then delete (content b) P else P
       | None => P
       end.

(** ** Two sentences of the specification, as they are written *)


(** "Releasing as output copies exactly the view-window bytes back,
    leaving bytes outside the window untouched": after the release of a
    pinned view, the backing array differs from what it was at most at the
    indices of the window. *)
Definition commit_touches_window_only : Prop :=
  ∀ output view w n old,
    is_direct view = false →
    pins w !! content view = Some (backing_array view, n) →
    arrays w !! backing_array view = Some old →
    ∃ new,
      arrays (stodium_release_output output view w).2 !! backing_array view
        = Some new ∧
      ∀ i : nat,
        Z.of_nat i < offset view ∨
        offset view + capacity view <= Z.of_nat i →
        new !! i = old !! i.

(** ** Loading the library

    [JNI_OnLoad] runs once, when the VM loads the library, against the
    part of the VM modelled here: the status [GetEnv] answers for a
    version, the classes that exist with the identifiers of their methods
    by name and signature, and the pending exception.  A class reference is
    the name of the class, [None] is [NULL].  The four statics of the C
    file are fields of the same state: [cached_class] is
    [stodium_g_byte_buffer_class], [cached_array], [cached_array_offset]
    and [cached_remaining] are the three [stodium_g_byte_buffer_method_]
    identifiers.  [FindClass] and [GetMethodID] answer [NULL] and leave an
    exception pending when the class or the method does not exist. *)

Definition JNI_OK : Z := 0.
Definition JNI_VERSION_1_6 : Z := 65542. (* 0x00010006 *)

Inductive vm_call :=
| VGetEnv (version : Z)
| VFindClass (name : string)
| VExceptionCheck
| VGetMethodID (cls : option string) (name sig : string).

Record vm := VM {
  vm_env : Z → Z;
  vm_classes : gmap string (gmap (string * string) jmethodID);
  vm_pending : bool;
  vm_log : list vm_call;
  cached_class : option string;
  cached_array : option jmethodID;
  cached_array_offset : option jmethodID;
  cached_remaining : option jmethodID
}.

Definition L (A : Type) : Type := vm → A * vm.

Global Instance L_ret : MRet L := λ A a v, (a, v).
Global Instance L_bind : MBind L :=
  λ A B f m v, let '(a, v') := m v in f a v'.

Definition vm_called (c : vm_call) (v : vm) : vm :=
  VM (vm_env v) (vm_classes v) (vm_pending v) (vm_log v ++ [c])
    (cached_class v) (cached_array v) (cached_array_offset v)
    (cached_remaining v).
Definition vm_thrown (v : vm) : vm :=
  VM (vm_env v) (vm_classes v) true (vm_log v)
    (cached_class v) (cached_array v) (cached_array_offset v)
    (cached_remaining v).
Definition set_cached_class (c : option string) : L unit := λ v,
  (tt, VM (vm_env v) (vm_classes v) (vm_pending v) (vm_log v)
         c (cached_array v) (cached_array_offset v) (cached_remaining v)).
Definition set_cached_array (i : option jmethodID) : L unit := λ v,
  (tt, VM (vm_env v) (vm_classes v) (vm_pending v) (vm_log v)
         (cached_class v) i (cached_array_offset v) (cached_remaining v)).
Definition set_cached_array_offset (i : option jmethodID) : L unit := λ v,
  (tt, VM (vm_env v) (vm_classes v) (vm_pending v) (vm_log v)
         (cached_class v) (cached_array v) i (cached_remaining v)).
Definition set_cached_remaining (i : option jmethodID) : L unit := λ v,
  (tt, VM (vm_env v) (vm_classes v) (vm_pending v) (vm_log v)
         (cached_class v) (cached_array v) (cached_array_offset v) i).
Definition get_cached_class : L (option string) := λ v, (cached_class v, v).

Definition GetEnv (version : Z) : L Z := λ v,
  (vm_env v version, vm_called (VGetEnv version) v).

Definition FindClass (name : string) : L (option string) := λ v,
  let v := vm_called (VFindClass name) v in
  match vm_classes v !! name with
  | Some _ => (Some name, v)
  | None => (None, vm_thrown v)
  end.

Definition ExceptionCheck : L bool := λ v,
  (vm_pending v, vm_called VExceptionCheck v).

(** The method of class [cls] with that name and signature, if any. *)
Definition method_of (v : vm) (cls : option string) (name sig : string)
  : option jmethodID :=
  c ← cls; ms ← vm_classes v !! c; ms !! (name, sig).

Definition GetMethodID (cls : option string) (name sig : string)
  : L (option jmethodID) := λ v,
  let v := vm_called (VGetMethodID cls name sig) v in
  match method_of v cls name sig with
  | Some i => (Some i, v)
  | None => (None, vm_thrown v)
  end.

Definition JNI_OnLoad : L Z :=
  status ← GetEnv JNI_VERSION_1_6;
  if bool_decide (status ≠ JNI_OK) then mret (-1) else
  (found ← FindClass "java/nio/ByteBuffer";
   set_cached_class found;;
   thrown ← ExceptionCheck;
   if (thrown : bool) then mret (-1) else
   (cls ← get_cached_class;
    found ← GetMethodID cls "array" "()[B";
    set_cached_array found;;
    thrown ← ExceptionCheck;
    if (thrown : bool) then mret (-1) else
    (cls ← get_cached_class;
     found ← GetMethodID cls "arrayOffset" "()I";
     set_cached_array_offset found;;
     thrown ← ExceptionCheck;
     if (thrown : bool) then mret (-1) else
     (cls ← get_cached_class;
      found ← GetMethodID cls "remaining" "()I";
      set_cached_remaining found;;
      thrown ← ExceptionCheck;
      if (thrown : bool) then mret (-1) else
      mret JNI_VERSION_1_6)))).

(** The identifiers of [array], [arrayOffset] and [remaining] in the VM's
    [java.nio.ByteBuffer], when the class and the three methods exist. *)
Definition byte_buffer_ids (v : vm)
  : option (jmethodID * jmethodID * jmethodID) :=
  a ← method_of v (Some "java/nio/ByteBuffer") "array" "()[B";
  o ← method_of v (Some "java/nio/ByteBuffer") "arrayOffset" "()I";
  r ← method_of v (Some "java/nio/ByteBuffer") "remaining" "()I";
  Some (a, o, r).

(** A VM with [java.nio.ByteBuffer], and one without. *)
Definition vm_standard : vm :=
  VM (λ _, JNI_OK)
    {[ "java/nio/ByteBuffer" :=
         {[ ("array", "()[B") := MID_array;
            ("arrayOffset", "()I") := MID_arrayOffset;
            ("remaining", "()I") := MID_remaining ]} ]}
    false [] None None None None.

Definition vm_without_nio : vm :=
  VM (λ _, JNI_OK) ∅ false [] None None None None.

(** A VM whose [ByteBuffer] has no [arrayOffset]. *)
Definition vm_partial : vm :=
  VM (λ _, JNI_OK)
    {[ "java/nio/ByteBuffer" :=
         {[ ("array", "()[B") := MID_array;
            ("remaining", "()I") := MID_remaining ]} ]}
    false [] None None None None.

(** ** The constant getters

    [STODIUM_CONSTANT(group, primitive, constant)] defines a function that
    returns [(jint) crypto_group_primitive_constant ()]; the argument here
    is the [size_t] the external function returns.  The file instantiates
    it for [core_hsalsa20] ([outputbytes], [inputbytes], [keybytes],
    [constbytes]) and for [scalarmult_curve25519] ([bytes],
    [scalarbytes]). *)
Definition STODIUM_CONSTANT (constant : Z) : M Z := mret (to_jint constant).

(** ** Handles, views and callers used in the statements below *)

(** A handle that is absent or designates a direct buffer, and the address
    it stands for. *)
Definition direct_or_absent (h : jobject) : Prop :=
  match h with None => True | Some bb => direct_address bb ≠ 0 end.
Definition address_of (h : jobject) : Z :=
  match h with None => 0 | Some bb => direct_address bb end.

(** The world without its two ghost logs. *)
Definition erase_logs (w : world) : world :=
  set_jni_log (λ _, []) (set_calls (λ _, []) w).

(** [old] with the bytes [out] written over it from index [off] on. *)
Definition splice (old : list Z) (off : nat) (out : list Z) : list Z :=
  take off old ++ out ++ drop (off + length out) old.

(** A caller that calls an initialisation entry point [n] times in a row
    and collects the results. *)
Fixpoint repeatedly (n : nat) (init : M Z) : M (list Z) :=
  match n with
  | O => mret []
  | S n' => r ← init; rs ← repeatedly n' init; mret (r :: rs)
  end.

(** ** Elementary facts *)

Lemma wrap_signed_32_id v : c_int v → to_jint v = v.
Proof.
  unfold c_int, to_jint, wrap_signed. intros Hv.
  change (2 ^ (32 - 1)) with 2147483648 in *.
  change (2 ^ 31) with 2147483648 in *.
  change (2 ^ 32) with 4294967296.
  rewrite Z.mod_small; lia.
Qed.

Lemma wrap_unsigned_id bits v : 32 <= bits → java_nat v → wrap_unsigned bits v = v.
Proof.
  unfold java_nat, wrap_unsigned. intros Hb Hv.
  apply Z.mod_small. split; [lia|].
  apply Z.lt_le_trans with (2 ^ 31); [lia|].
  apply Z.pow_le_mono_r; lia.
Qed.

Lemma read_bytes_insert_below m a a' b n :
  a < a' → read_bytes (<[a := b]> m) a' n = read_bytes m a' n.
Proof.
  revert a'. induction n as [|n IH]; intros a' Hlt; simpl; [done|].
  rewrite lookup_insert_ne by lia. f_equal. apply IH. lia.
Qed.

Lemma read_write_bytes bs a m :
  read_bytes (write_bytes a bs m) a (length bs) = bs.
Proof.
  revert a. induction bs as [|b bs IH]; intros a; simpl; [done|].
  rewrite lookup_insert_eq. simpl. f_equal.
  rewrite read_bytes_insert_below by lia. apply IH.
Qed.

Lemma read_bytes_lookup m a n (i : nat) :
  (i < n)%nat →
  read_bytes m a n !! i = Some (default 0 (m !! (a + Z.of_nat i))).
Proof.
  revert a i. induction n as [|n IH]; intros a i Hi; [lia|].
  destruct i as [|i]; simpl.
  - by rewrite Z.add_0_r.
  - rewrite IH by lia. do 3 f_equal. lia.
Qed.

(** Unfolding the monad and the runtime model. *)
Ltac run :=
  unfold stodium_get_buffer, stodium_release_output, stodium_release_input,
    GetDirectBufferAddress, GetDirectBufferCapacity, CallObjectMethod,
    CallIntMethod, GetByteArrayElements, ReleaseByteArrayElements, extern,
    mbind, M_bind, mret, M_ret, enter, jni, throw, modify in *;
  unfold forget_calls, set_arrays, set_pins, set_native, set_brk,
    set_pin_budget, set_pending, set_jni_log, set_calls in *;
  cbn in *.

Ltac crunch := run; repeat (case_match; cbn in *; simplify_eq); try done.

Lemma get_buffer_calls dst h w :
  calls (stodium_get_buffer dst h w).2 = calls w ++ [Call_get_buffer h].
Proof. crunch. Qed.

Lemma release_output_calls h b w :
  calls (stodium_release_output h b w).2 = calls w ++ [Call_release_output h].
Proof. crunch. Qed.

Lemma release_input_calls h b w :
  calls (stodium_release_input h b w).2 = calls w ++ [Call_release_input h].
Proof. crunch. Qed.

Lemma extern_calls f w :
  calls (extern f w).2 = calls w ++ [Call_primitive (f (native w)).2].
Proof. crunch. Qed.

Lemma extern_status f w : (extern f w).1 = (f (native w)).2.
Proof. crunch. Qed.

(** One statement of a wrapper: name its result and its final world, and
    record what it appended to the call log. *)
Ltac next_get h :=
  match goal with
  | |- context [stodium_get_buffer ?d h ?w] =>
    let b := fresh "b" in let w' := fresh "w" in
    let E := fresh "E" in let C := fresh "C" in
    pose proof (get_buffer_calls d h w) as C;
    destruct (stodium_get_buffer d h w) as [b w'] eqn:E; simpl in C
  end.

Ltac next_extern :=
  match goal with
  | |- context [extern ?f ?w] =>
    let st := fresh "st" in let w' := fresh "w" in
    let E := fresh "E" in let C := fresh "C" in let S := fresh "S" in
    pose proof (extern_calls f w) as C;
    pose proof (extern_status f w) as S;
    destruct (extern f w) as [st w'] eqn:E; simpl in C, S
  end.

Ltac next_release_output :=
  match goal with
  | |- context [stodium_release_output ?h ?b ?w] =>
    let u := fresh "u" in let w' := fresh "w" in
    let E := fresh "E" in let C := fresh "C" in
    pose proof (release_output_calls h b w) as C;
    destruct (stodium_release_output h b w) as [u w'] eqn:E; simpl in C
  end.

Ltac next_release_input :=
  match goal with
  | |- context [stodium_release_input ?h ?b ?w] =>
    let u := fresh "u" in let w' := fresh "w" in
    let E := fresh "E" in let C := fresh "C" in
    pose proof (release_input_calls h b w) as C;
    destruct (stodium_release_input h b w) as [u w'] eqn:E; simpl in C
  end.

Ltac open_wrapper :=
  unfold crypto_1core_1hsalsa20, crypto_1scalarmult_1curve25519,
    crypto_1scalarmult_1curve25519_1base, mbind, M_bind, mret, M_ret.

Lemma hsalsa20_invocation dst src key constant w :
  ∃ d s k c m,
    let status := (crypto_core_hsalsa20 d s k c m).2 in
    (crypto_1core_1hsalsa20 dst src key constant w).1 = to_jint status ∧
    calls (crypto_1core_1hsalsa20 dst src key constant w).2 =
      calls w ++ invocation dst [src; key; constant] status.
Proof.
  open_wrapper.
  next_get dst. next_get src. next_get key. next_get constant.
  next_extern.
  next_release_output. do 3 next_release_input.
  eexists _, _, _, _, _. simpl. split; [by rewrite S|].
  rewrite C7, C6, C5, C4, C3, C2, C1, C0, C.
  unfold invocation. simpl. by rewrite <- !app_assoc.
Qed.

Lemma scalarmult_invocation dst priv pub w :
  ∃ d s p m,
    let status := (crypto_scalarmult_curve25519 d s p m).2 in
    (crypto_1scalarmult_1curve25519 dst priv pub w).1 = to_jint status ∧
    calls (crypto_1scalarmult_1curve25519 dst priv pub w).2 =
      calls w ++ invocation dst [priv; pub] status.
Proof.
  open_wrapper.
  next_get dst. next_get priv. next_get pub.
  next_extern.
  next_release_output. do 2 next_release_input.
  eexists _, _, _, _. simpl. split; [by rewrite S|].
  rewrite C5, C4, C3, C2, C1, C0, C.
  unfold invocation. simpl. by rewrite <- !app_assoc.
Qed.

Lemma scalarmult_base_invocation dst src w :
  ∃ d s m,
    let status := (crypto_scalarmult_curve25519_base d s m).2 in
    (crypto_1scalarmult_1curve25519_1base dst src w).1 = to_jint status ∧
    calls (crypto_1scalarmult_1curve25519_1base dst src w).2 =
      calls w ++ invocation dst [src] status.
Proof.
  open_wrapper.
  next_get dst. next_get src.
  next_extern.
  next_release_output. next_release_input.
  eexists _, _, _. simpl. split; [by rewrite S|].
  rewrite C3, C2, C1, C0, C.
  unfold invocation. simpl. by rewrite <- !app_assoc.
Qed.

(** *** The shape of an invocation *)

Lemma count_app p tr1 tr2 :
  count p (tr1 ++ tr2) = (count p tr1 + count p tr2)%nat.
Proof. induction tr1 as [|c tr1 IH]; simpl; [done|]. rewrite IH. lia. Qed.

Lemma count_gets ins :
  count is_get (map Call_get_buffer ins) = length ins ∧
  count is_release_input (map Call_get_buffer ins) = 0%nat ∧
  count is_release_output (map Call_get_buffer ins) = 0%nat ∧
  count is_primitive (map Call_get_buffer ins) = 0%nat.
Proof. induction ins as [|h ins IH]; simpl; [done|]. lia. Qed.

Lemma count_input_releases ins :
  count is_get (map Call_release_input ins) = 0%nat ∧
  count is_release_input (map Call_release_input ins) = length ins ∧
  count is_release_output (map Call_release_input ins) = 0%nat ∧
  count is_primitive (map Call_release_input ins) = 0%nat.
Proof. induction ins as [|h ins IH]; simpl; [done|]. lia. Qed.

Lemma invocation_counts out ins status :
  let tr := invocation out ins status in
  count is_get tr = S (length ins) ∧
  count is_release_input tr = length ins ∧
  count is_release_output tr = 1%nat ∧
  count is_primitive tr = 1%nat.
Proof.
  unfold invocation. simpl. rewrite !count_app. simpl.
  destruct (count_gets ins) as (-> & -> & -> & ->).
  destruct (count_input_releases ins) as (-> & -> & -> & ->). lia.
Qed.

Lemma resolved_app tr1 tr2 : resolved (tr1 ++ tr2) = resolved tr1 ++ resolved tr2.
Proof.
  induction tr1 as [|c tr1 IH]; simpl; [done|]. destruct c; simpl; by rewrite ?IH.
Qed.

Lemma released_app tr1 tr2 : released (tr1 ++ tr2) = released tr1 ++ released tr2.
Proof.
  induction tr1 as [|c tr1 IH]; simpl; [done|]. destruct c; simpl; by rewrite ?IH.
Qed.

Lemma handles_of_gets ins :
  resolved (map Call_get_buffer ins) = ins ∧
  released (map Call_get_buffer ins) = [].
Proof. induction ins as [|h ins [IH1 IH2]]; simpl; [done|]. by rewrite IH1. Qed.

Lemma handles_of_input_releases ins :
  resolved (map Call_release_input ins) = [] ∧
  released (map Call_release_input ins) = ins.
Proof. induction ins as [|h ins [IH1 IH2]]; simpl; [done|]. by rewrite IH2. Qed.

Lemma invocation_handles out ins status :
  resolved (invocation out ins status) = out :: ins ∧
  released (invocation out ins status) = out :: ins.
Proof.
  unfold invocation. simpl. rewrite resolved_app, released_app. simpl.
  destruct (handles_of_gets ins) as [-> ->].
  destruct (handles_of_input_releases ins) as [-> ->].
  by rewrite app_nil_r.
Qed.

Lemma no_output_release_among_inputs ins :
  forallb (λ c, negb (is_release_output c)) (map Call_release_input ins) = true.
Proof. induction ins as [|h ins IH]; simpl; done. Qed.

Lemma order_after_gets ins tr :
  outputs_before_inputs (map Call_get_buffer ins ++ tr) =
    outputs_before_inputs tr.
Proof. induction ins as [|h ins IH]; simpl; done. Qed.

Lemma invocation_order out ins status :
  outputs_before_inputs (invocation out ins status) = true.
Proof.
  unfold invocation. simpl. rewrite order_after_gets. simpl.
  destruct ins as [|h ins]; simpl; [done|].
  apply no_output_release_among_inputs.
Qed.

Lemma invocation_releases_output out ins status :
  Call_release_output out ∈ invocation out ins status.
Proof.
  unfold invocation. rewrite elem_of_cons, elem_of_app, !elem_of_cons.
  right. right. right. by left.
Qed.

Lemma invocation_balanced out ins status :
  balanced (invocation out ins status).
Proof.
  split.
  - destruct (invocation_counts out ins status) as (-> & -> & -> & _). lia.
  - destruct (invocation_handles out ins status) as [-> ->]. done.
Qed.

(** ** The wrappers: release discipline, status, order *)

(** C8. Release order: in each wrapper the output view is released before
    any input view; no call of [stodium_release_input] precedes a call of
    [stodium_release_output] within one invocation. *)
Theorem outputs_released_first dst src key constant priv pub w :
  appends (crypto_1core_1hsalsa20 dst src key constant) w
    (λ tr, outputs_before_inputs tr = true) ∧
  appends (crypto_1scalarmult_1curve25519 dst priv pub) w
    (λ tr, outputs_before_inputs tr = true) ∧
  appends (crypto_1scalarmult_1curve25519_1base dst src) w
    (λ tr, outputs_before_inputs tr = true).
Proof.
  unfold appends. split; [|split].
  - destruct (hsalsa20_invocation dst src key constant w)
      as (d & s & k & c & m & _ & H).
    eexists; split; [exact H|]. apply invocation_order.
  - destruct (scalarmult_invocation dst priv pub w)
      as (d & s & p & m & _ & H).
    eexists; split; [exact H|]. apply invocation_order.
  - destruct (scalarmult_base_invocation dst src w) as (d & s & m & _ & H).
    eexists; split; [exact H|]. apply invocation_order.
Qed.

(** ** The buffer functions *)

(** C5. Absence transparency: resolving a [NULL] handle yields the view
    with [content], [offset] and [capacity] all zero, raises nothing and
    calls no JNI function; releasing that view as an input or as an output,
    under any handle and in any world, calls no JNI function and changes
    nothing either (only the ghost log of calls grows). *)
Theorem absent_handle_transparent dst w :
  let r := stodium_get_buffer dst None w in
  content r.1 = 0 ∧ offset r.1 = 0 ∧ capacity r.1 = 0 ∧
  forget_calls r.2 = forget_calls w ∧
  ∀ output w',
    forget_calls (stodium_release_input output r.1 w').2 = forget_calls w' ∧
    forget_calls (stodium_release_output output r.1 w').2 = forget_calls w'.
Proof. simpl. repeat split. Qed.

(** C6. Pinned discard on input: releasing a non-direct view as an input
    leaves every Java array as it was, whatever the pinned copy holds by
    then, and when the view holds a live pinned copy (a non-[NULL]
    [content]) that copy is released. *)
Theorem release_input_discards output view w :
  is_direct view = false →
  let w' := (stodium_release_input output view w).2 in
  arrays w' = arrays w ∧
  ∀ n, content view ≠ 0 →
       pins w !! content view = Some (backing_array view, n) →
       pins w' = delete (content view) (pins w).
Proof.
  intros Hd. run. rewrite Hd. cbn. split.
  - repeat (case_match; cbn in *; simplify_eq); done.
  - intros n Hc Hp. rewrite bool_decide_eq_false_2 by done. cbn.
    rewrite Hp. rewrite bool_decide_eq_true_2 by done. done.
Qed.

(** C3, as amended. Pinned commit: releasing a non-direct view that holds
    a live pinned copy as an output writes the whole pinned copy, all [n]
    elements and not only the window [offset, offset + capacity), over the
    backing array and releases the pin.  So the array afterwards is the
    pinned copy, a byte of the array keeps its value wherever the pinned
    copy still held that value, and no other array changes.  Each wrapper
    reaches this release for its [dst] in every invocation, whatever the
    primitive returned. *)
Theorem release_output_commits_copy output view w n :
  is_direct view = false →
  pins w !! content view = Some (backing_array view, n) →
  let w' := (stodium_release_output output view w).2 in
  let copy := read_bytes (native w) (content view) n in
  arrays w' = <[backing_array view := copy]> (arrays w) ∧
  pins w' = delete (content view) (pins w) ∧
  (∀ (i : nat), (i < n)%nat →
     copy !! i =
       Some (default 0 (native w !! (content view + Z.of_nat i)))) ∧
  (∀ old (i : nat) b,
     arrays w !! backing_array view = Some old →
     old !! i = Some b → copy !! i = Some b →
     ∃ new, arrays w' !! backing_array view = Some new ∧ new !! i = old !! i) ∧
  (∀ dst src key constant priv pub w0,
     appends (crypto_1core_1hsalsa20 dst src key constant) w0
       (λ tr, Call_release_output dst ∈ tr) ∧
     appends (crypto_1scalarmult_1curve25519 dst priv pub) w0
       (λ tr, Call_release_output dst ∈ tr) ∧
     appends (crypto_1scalarmult_1curve25519_1base dst src) w0
       (λ tr, Call_release_output dst ∈ tr)).
Proof.
  intros Hd Hp. run. rewrite Hd. cbn. rewrite Hp.
  rewrite bool_decide_eq_true_2 by done. cbn.
  split; [done|]. split; [done|]. split; [|split].
  - intros i Hi. by apply read_bytes_lookup.
  - intros old i b Ho Hb Hc.
    exists (read_bytes (native w) (content view) n).
    split; [apply lookup_insert_eq | congruence].
  - intros dst src key constant priv pub w0. unfold appends.
    split; [|split].
    + destruct (hsalsa20_invocation dst src key constant w0)
        as (d & s & k & c & m & _ & H).
      eexists; split; [exact H|]. apply invocation_releases_output.
    + destruct (scalarmult_invocation dst priv pub w0)
        as (d & s & p & m & _ & H).
      eexists; split; [exact H|]. apply invocation_releases_output.
    + destruct (scalarmult_base_invocation dst src w0)
        as (d & s & m & _ & H).
      eexists; split; [exact H|]. apply invocation_releases_output.
Qed.

Lemma to_jint_java_nat v : java_nat v → to_jint v = v.
Proof.
  intros Hv. apply wrap_signed_32_id. unfold c_int, java_nat in *. lia.
Qed.

Lemma size_t_of_jint r :
  32 <= size_bits → (∀ v, r = Some v → java_nat v) →
  to_size_t (match r with Some v => to_jint v | None => 0 end) = jvalue r.
Proof.
  intros Hb Hr. unfold to_size_t. destruct r as [v|]; simpl.
  - rewrite to_jint_java_nat by auto. apply wrap_unsigned_id; auto.
  - apply wrap_unsigned_id; [done|]. unfold java_nat. lia.
Qed.

(** C4. The two shapes of a resolved view, for a handle that is not
    [NULL], on a target whose [size_t] has at least 32 bits.  When the
    runtime reports a direct address, the view is direct, with offset [0],
    the reported capacity as length and the reported address as base
    pointer; no array is copied or pinned and only the two direct-buffer
    queries are made.  Otherwise the view is not direct: its backing array
    is the reference [array()] returned, its offset the reported array
    offset, its length the reported remaining length, and, when the VM
    serves the pin request, its base pointer is the address of the pinned
    copy, which holds the elements of the array. *)
Theorem get_buffer_shapes dst bb w :
  32 <= size_bits → well_formed bb →
  let r := stodium_get_buffer dst (Some bb) w in
  (direct_address bb ≠ 0 →
     is_direct r.1 = true ∧ offset r.1 = 0 ∧
     capacity r.1 = direct_capacity bb ∧ content r.1 = direct_address bb ∧
     arrays r.2 = arrays w ∧ pins r.2 = pins w ∧ native r.2 = native w ∧
     jni_log r.2 =
       jni_log w ++ [JGetDirectBufferAddress bb; JGetDirectBufferCapacity bb])
  ∧
  (direct_address bb = 0 →
     is_direct r.1 = false ∧
     backing_array r.1 = jvalue (bb_array bb) ∧
     offset r.1 = jvalue (bb_arrayOffset bb) ∧
     capacity r.1 = jvalue (bb_remaining bb) ∧
     arrays r.2 = arrays w ∧
     ∀ bs k,
       arrays w !! backing_array r.1 = Some bs → pin_budget w = S k →
       content r.1 = brk w ∧
       pins r.2 = <[brk w := (backing_array r.1, length bs)]> (pins w) ∧
       read_bytes (native r.2) (content r.1) (length bs) = bs).
Proof.
  intros Hbits (Hcap & Hoff & Hrem). split; intros Ha.
  - run. rewrite bool_decide_eq_true_2 by done. cbn.
    repeat split; try done.
    + apply wrap_unsigned_id; auto.
    + by rewrite <- app_assoc.
  - pose proof (size_t_of_jint _ Hbits Hoff) as Eoff.
    pose proof (size_t_of_jint _ Hbits Hrem) as Erem.
    run. rewrite bool_decide_eq_false_2 by (intros ?; done). cbn.
    destruct (bb_array bb) as [hb|], (bb_arrayOffset bb) as [off|],
      (bb_remaining bb) as [rem|]; cbn in *.
    all: destruct (arrays w !! _) as [bs0|] eqn:Ea; cbn.
    all: try destruct (pin_budget w) as [|k0] eqn:Ek; cbn.
    all: do 5 (split; [done|]).
    all: intros bs k Hbs Hk; simplify_eq.
    all: split; [done|split; [done|apply read_write_bytes]].
Qed.

(** ** Failures of the runtime during resolution *)


Lemma get_buffer_throws dst bb w :
  throws bb → pending (stodium_get_buffer dst (Some bb) w).2 = true.
Proof.
  intros [Ha Ht]. run. rewrite bool_decide_eq_false_2 by (intros ?; done).
  cbn. destruct Ht as [Ht|[Ht|Ht]]; rewrite Ht; cbn.
  all: repeat (case_match; cbn in *; simplify_eq); done.
Qed.

Lemma extern_pending f w : pending (extern f w).2 = pending w.
Proof. crunch. Qed.

Lemma release_output_pending h b w :
  pending (stodium_release_output h b w).2 = pending w.
Proof. crunch. Qed.

Lemma release_input_pending h b w :
  pending (stodium_release_input h b w).2 = pending w.
Proof. crunch. Qed.

Lemma hsalsa20_pending dst src key constant w :
  pending (crypto_1core_1hsalsa20 dst src key constant w).2 =
  pending (stodium_get_buffer uninit constant
    (stodium_get_buffer uninit key
      (stodium_get_buffer uninit src
        (stodium_get_buffer uninit dst w).2).2).2).2.
Proof.
  open_wrapper.
  destruct (stodium_get_buffer uninit dst w) as [b1 w1]; cbn [snd].
  destruct (stodium_get_buffer uninit src w1) as [b2 w2]; cbn [snd].
  destruct (stodium_get_buffer uninit key w2) as [b3 w3]; cbn [snd].
  destruct (stodium_get_buffer uninit constant w3) as [b4 w4]; cbn [snd].
  match goal with |- context [extern ?f w4] =>
    pose proof (extern_pending f w4) as P5;
    destruct (extern f w4) as [st w5] end.
  pose proof (release_output_pending dst b1 w5) as P6.
  destruct (stodium_release_output dst b1 w5) as [[] w6].
  pose proof (release_input_pending src b2 w6) as P7.
  destruct (stodium_release_input src b2 w6) as [[] w7].
  pose proof (release_input_pending key b3 w7) as P8.
  destruct (stodium_release_input key b3 w7) as [[] w8].
  pose proof (release_input_pending constant b4 w8) as P9.
  destruct (stodium_release_input constant b4 w8) as [[] w9].
  cbn in *. congruence.
Qed.







(** ** Initialisation *)

Lemma stodium_1init_unfold w :
  stodium_1init w =
    if sodium_initialized w then (0, w)
    else if sodium_env_ok w
         then (0, set_sodium_initialized (λ _, true) w)
         else (-1, w).
Proof.
  unfold stodium_1init, sodium_init, mbind, M_bind, mret, M_ret.
  destruct (sodium_initialized w), (sodium_env_ok w); reflexivity.
Qed.

(** C9. Idempotent initialisation: where libsodium is initialised already
    or its one-time setup can succeed, two calls of [stodium_init] in
    sequence both return [0]; the second one finds the library initialised
    (the external call answers [1]) and changes nothing. *)
Theorem init_twice w :
  sodium_initialized w = true ∨ sodium_env_ok w = true →
  let first := stodium_1init w in
  let second := stodium_1init first.2 in
  first.1 = 0 ∧ second.1 = 0 ∧
  (sodium_init first.2).1 = 1 ∧
  sodium_initialized second.2 = true ∧ second.2 = first.2.
Proof.
  intros Hok. cbn zeta. rewrite !stodium_1init_unfold. unfold sodium_init.
  destruct (sodium_initialized w) eqn:Hi; cbn.
  - rewrite Hi. cbn. by rewrite Hi.
  - destruct Hok as [Hok|Hok]; [done|]. rewrite Hok. cbn. done.
Qed.

(** C10. The two initialisation entry points: [stodium_init] returns [-1]
    exactly when the external [sodium_init] returns [-1] and [0] for any
    other status, [sodium_init]'s wrapper returns the external status as it
    is, both leave the same world, and there is a world (libsodium already
    initialised, external status [1]) where the two return different
    values. *)
Theorem init_entry_points_differ :
  (∀ w,
     let ext := (sodium_init w).1 in
     (stodium_1init w).1 = (if bool_decide (ext = -1) then -1 else 0) ∧
     ((stodium_1init w).1 = -1 ↔ ext = -1) ∧
     (sodium_1init w).1 = ext ∧
     (stodium_1init w).2 = (sodium_1init w).2) ∧
  (∃ w,
     (sodium_init w).1 = 1 ∧
     (stodium_1init w).1 = 0 ∧ (sodium_1init w).1 = 1).
Proof.
  split.
  - intros w.
    unfold stodium_1init, sodium_1init, sodium_init, mbind, M_bind, mret,
      M_ret.
    destruct (sodium_initialized w), (sodium_env_ok w); cbn; done.
  - exists world_ready. done.
Qed.

(** ** No pinned copy outlives an invocation *)

(** A resolution either pins nothing, and then the view is direct or has a
    [NULL] base pointer, or it adds one pinned copy at the allocator's
    address, which is the base pointer of a view that is not direct. *)
Lemma get_buffer_pins dst h w :
  let r := stodium_get_buffer dst h w in
  (pins r.2 = pins w ∧ brk r.2 = brk w ∧
   (is_direct r.1 = true ∨ content r.1 = 0)) ∨
  (∃ n, pins r.2 = <[brk w := (backing_array r.1, n)]> (pins w) ∧
        brk w < brk r.2 ∧ is_direct r.1 = false ∧ content r.1 = brk w).
Proof.
  run. repeat (case_match; cbn in *; simplify_eq).
  all: try (left; repeat split; auto; done).
  all: right; exists (length l); cbn; repeat split; lia.
Qed.

Lemma extern_pins f w :
  pins (extern f w).2 = pins w ∧ brk (extern f w).2 = brk w.
Proof. crunch. Qed.

Lemma release_output_pins h b w :
  pins (stodium_release_output h b w).2 = unpin b (pins w).
Proof. unfold unpin. crunch. Qed.

Lemma release_input_pins h b w :
  pins w !! 0 = None →
  pins (stodium_release_input h b w).2 = unpin b (pins w).
Proof.
  intros H0. unfold unpin. run. destruct (is_direct b); cbn; [done|].
  case_bool_decide as Hc; cbn.
  - by rewrite Hc, H0.
  - repeat (case_match; cbn in *; simplify_eq); done.
Qed.

Lemma unpin_pinned b P n :
  is_direct b = false → P !! content b = Some (backing_array b, n) →
  unpin b P = delete (content b) P.
Proof.
  intros Hd Hp. unfold unpin. rewrite Hd, Hp.
  by rewrite bool_decide_eq_true_2.
Qed.

Lemma unpin_unpinned b P :
  P !! 0 = None → is_direct b = true ∨ content b = 0 → unpin b P = P.
Proof.
  intros H0 [Hd|Hc]; unfold unpin; [by rewrite Hd|].
  destruct (is_direct b); [done|]. by rewrite Hc, H0.
Qed.

(** Rewrites [R : _ = unpin b Q], for [Q] a stack of insertions of the
    copies pinned so far over the initial table, to the table without the
    copy of [b]. *)
Ltac unpin_in R H0 Hfresh :=
  match type of R with
  | _ = unpin ?b ?Q =>
    first
      [ match goal with
        | D : is_direct b = false, C : content b = _ |- _ =>
          erewrite (unpin_pinned b Q _ D) in R
            by (rewrite C; rewrite ?lookup_insert_ne by lia;
                apply lookup_insert_eq);
          rewrite C in R;
          rewrite ?delete_insert_ne in R by lia;
          rewrite delete_insert_id in R by (apply Hfresh; lia)
        end
      | match goal with
        | U : is_direct b = true ∨ content b = 0 |- _ =>
          rewrite (unpin_unpinned b Q) in R
            by first [ exact U
                     | rewrite ?lookup_insert_ne by lia; exact H0 ]
        end ]
  end.

Ltac resolve_pins h :=
  match goal with
  | |- context [stodium_get_buffer ?d h ?w] =>
    let b := fresh "b" in let w' := fresh "w" in
    let G := fresh "G" in
    pose proof (get_buffer_pins d h w) as G;
    destruct (stodium_get_buffer d h w) as [b w']; cbn [fst snd] in G
  end.

Ltac call_pins :=
  match goal with
  | |- context [extern ?f ?w] =>
    let st := fresh "st" in let w' := fresh "w" in
    let P := fresh "P" in let B := fresh "B" in
    pose proof (extern_pins f w) as [P B];
    destruct (extern f w) as [st w']; cbn [fst snd] in P, B
  end.

Ltac release_pins :=
  match goal with
  | |- context [stodium_release_output ?h ?b ?w] =>
    let w' := fresh "w" in let R := fresh "R" in
    pose proof (release_output_pins h b w) as R;
    destruct (stodium_release_output h b w) as [[] w']; cbn [fst snd] in R
  | |- context [stodium_release_input ?h ?b ?w] =>
    let w' := fresh "w" in let R := fresh "R" in
    pose proof (release_input_pins h b w) as R;
    destruct (stodium_release_input h b w) as [[] w']; cbn [fst snd] in R
  end.

Ltac next_unpin Rprev R H0 Hfresh :=
  rewrite Rprev in R;
  specialize (R ltac:(rewrite ?lookup_insert_ne by lia; exact H0));
  unpin_in R H0 Hfresh.

Lemma pins_in_range_fresh w :
  pins_in_range w →
  pins w !! 0 = None ∧ ∀ a, brk w <= a → pins w !! a = None.
Proof.
  intros [Hbrk Hrange]. split.
  - destruct (Hrange 0); [lia|done].
  - intros a Ha. destruct (Hrange a); [lia|done].
Qed.

Lemma no_pin_outlives_hsalsa20 dst src key constant w :
  pins_in_range w →
  pins (crypto_1core_1hsalsa20 dst src key constant w).2 = pins w.
Proof.
  intros Hw. destruct (pins_in_range_fresh w Hw) as [H0 Hfresh].
  destruct Hw as [Hbrk _]. open_wrapper.
  resolve_pins dst. resolve_pins src. resolve_pins key.
  resolve_pins constant. call_pins. do 4 release_pins. cbn.
  destruct G as [(E1 & B1 & U1)|(n1 & E1 & B1 & D1 & C1)],
    G0 as [(E2 & B2 & U2)|(n2 & E2 & B2 & D2 & C2)],
    G1 as [(E3 & B3 & U3)|(n3 & E3 & B3 & D3 & C3)],
    G2 as [(E4 & B4 & U4)|(n4 & E4 & B4 & D4 & C4)].
  all: rewrite P, E4, E3, E2, E1 in R; unpin_in R H0 Hfresh.
  all: next_unpin R R0 H0 Hfresh.
  all: next_unpin R0 R1 H0 Hfresh.
  all: next_unpin R1 R2 H0 Hfresh.
  all: exact R2.
Qed.

Lemma no_pin_outlives_scalarmult dst priv pub w :
  pins_in_range w →
  pins (crypto_1scalarmult_1curve25519 dst priv pub w).2 = pins w.
Proof.
  intros Hw. destruct (pins_in_range_fresh w Hw) as [H0 Hfresh].
  destruct Hw as [Hbrk _]. open_wrapper.
  resolve_pins dst. resolve_pins priv. resolve_pins pub.
  call_pins. do 3 release_pins. cbn.
  destruct G as [(E1 & B1 & U1)|(n1 & E1 & B1 & D1 & C1)],
    G0 as [(E2 & B2 & U2)|(n2 & E2 & B2 & D2 & C2)],
    G1 as [(E3 & B3 & U3)|(n3 & E3 & B3 & D3 & C3)].
  all: rewrite P, E3, E2, E1 in R; unpin_in R H0 Hfresh.
  all: next_unpin R R0 H0 Hfresh.
  all: next_unpin R0 R1 H0 Hfresh.
  all: exact R1.
Qed.

Lemma no_pin_outlives_scalarmult_base dst src w :
  pins_in_range w →
  pins (crypto_1scalarmult_1curve25519_1base dst src w).2 = pins w.
Proof.
  intros Hw. destruct (pins_in_range_fresh w Hw) as [H0 Hfresh].
  destruct Hw as [Hbrk _]. open_wrapper.
  resolve_pins dst. resolve_pins src.
  call_pins. do 2 release_pins. cbn.
  destruct G as [(E1 & B1 & U1)|(n1 & E1 & B1 & D1 & C1)],
    G0 as [(E2 & B2 & U2)|(n2 & E2 & B2 & D2 & C2)].
  all: rewrite P, E2, E1 in R; unpin_in R H0 Hfresh.
  all: next_unpin R R0 H0 Hfresh.
  all: exact R0.
Qed.

(** C1. Release totality: in each of the three wrappers, whatever the
    handles, the world and the primitive (hence whatever status it
    returns), the calls of [stodium_get_buffer] are as many as the calls of
    [stodium_release_input] and [stodium_release_output] together, the
    handles released are exactly the handles resolved, and every view is
    released: started where the allocator's invariant holds, the wrapper
    returns with the table of pinned copies as it found it, so each copy
    pinned by a resolution has been released, once, by the release of its
    own view. *)
Theorem release_totality dst src key constant priv pub w :
  (appends (crypto_1core_1hsalsa20 dst src key constant) w balanced ∧
   appends (crypto_1scalarmult_1curve25519 dst priv pub) w balanced ∧
   appends (crypto_1scalarmult_1curve25519_1base dst src) w balanced) ∧
  (pins_in_range w →
   pins (crypto_1core_1hsalsa20 dst src key constant w).2 = pins w ∧
   pins (crypto_1scalarmult_1curve25519 dst priv pub w).2 = pins w ∧
   pins (crypto_1scalarmult_1curve25519_1base dst src w).2 = pins w).
Proof.
  split.
  - unfold appends. split; [|split].
    + destruct (hsalsa20_invocation dst src key constant w)
        as (d & s & k & c & m & _ & H).
      eexists; split; [exact H|]. apply invocation_balanced.
    + destruct (scalarmult_invocation dst priv pub w)
        as (d & s & p & m & _ & H).
      eexists; split; [exact H|]. apply invocation_balanced.
    + destruct (scalarmult_base_invocation dst src w)
        as (d & s & m & _ & H).
      eexists; split; [exact H|]. apply invocation_balanced.
  - intros Hw. split; [|split].
    + by apply no_pin_outlives_hsalsa20.
    + by apply no_pin_outlives_scalarmult.
    + by apply no_pin_outlives_scalarmult_base.
Qed.

(** ** Loading the library: [JNI_OnLoad] *)

Ltac run_vm :=
  unfold JNI_OnLoad, GetEnv, FindClass, ExceptionCheck, GetMethodID,
    set_cached_class, set_cached_array, set_cached_array_offset,
    set_cached_remaining, get_cached_class, vm_called, vm_thrown,
    byte_buffer_ids, method_of, mbind, L_bind, mret, L_ret in *;
  cbn in *.

(** Runs [JNI_OnLoad] on a VM with no exception pending, along each of its
    six paths: [GetEnv] refused, class missing, one of the three methods
    missing, everything found. *)
Ltac onload_paths v :=
  let env := fresh "env" in let classes := fresh "classes" in
  let pending := fresh "pending" in let ms := fresh "ms" in
  let Ho := fresh "Ho" in let Ec := fresh "Ec" in
  let Ea := fresh "Ea" in let Eo := fresh "Eo" in let Er := fresh "Er" in
  destruct v as [env classes pending ? ? ? ? ?];
  match goal with H : vm_pending _ = false |- _ => cbn in H; subst pending end;
  run_vm;
  destruct (decide (env JNI_VERSION_1_6 = JNI_OK)) as [Ho|Ho];
  [ rewrite ?(bool_decide_eq_false_2 _ (λ H, H Ho)) in *;
    rewrite ?(bool_decide_eq_true_2 _ Ho) in *; cbn in *;
    destruct (classes !! "java/nio/ByteBuffer") as [ms|] eqn:Ec;
    cbn in *; rewrite ?Ec in *; cbn in *;
    [ destruct (ms !! ("array", "()[B")) eqn:Ea;
      cbn in *; rewrite ?Ec in *; cbn in *; rewrite ?Ea in *; cbn in *;
      [ destruct (ms !! ("arrayOffset", "()I")) eqn:Eo;
        cbn in *; rewrite ?Ec in *; cbn in *; rewrite ?Eo in *; cbn in *;
        [ destruct (ms !! ("remaining", "()I")) eqn:Er;
          cbn in *; rewrite ?Ec in *; cbn in *; rewrite ?Er in *; cbn in *
        | ]
      | ]
    | ]
  | rewrite ?(bool_decide_eq_true_2 _ Ho) in *;
    rewrite ?(bool_decide_eq_false_2 _ Ho) in *; cbn in * ].

(** X1. [JNI_OnLoad], started with no exception pending, returns
    [JNI_VERSION_1_6] when [GetEnv] serves version 1.6 and the VM has
    [java.nio.ByteBuffer] with [array()[B], [arrayOffset()I] and
    [remaining()I]; in every other case it returns [-1]. *)
Theorem JNI_OnLoad_result v :
  vm_pending v = false →
  (JNI_OnLoad v).1 =
    if bool_decide (vm_env v JNI_VERSION_1_6 = JNI_OK)
    then match byte_buffer_ids v with
         | Some _ => JNI_VERSION_1_6
         | None => -1
         end
    else -1.
Proof. intros Hp. onload_paths v; done. Qed.

(** X2. When [JNI_OnLoad] succeeds, the statics hold the class and the
    identifiers of [array], [arrayOffset] and [remaining] of the VM's
    [java.nio.ByteBuffer], and no exception is pending. *)
Theorem JNI_OnLoad_caches_ids v :
  vm_pending v = false →
  (JNI_OnLoad v).1 = JNI_VERSION_1_6 →
  let v' := (JNI_OnLoad v).2 in
  ∃ a o r,
    byte_buffer_ids v = Some (a, o, r) ∧
    cached_class v' = Some "java/nio/ByteBuffer" ∧
    cached_array v' = Some a ∧
    cached_array_offset v' = Some o ∧
    cached_remaining v' = Some r ∧
    vm_pending v' = false.
Proof.
  intros Hp Hr. onload_paths v; try discriminate Hr.
  eexists _, _, _. repeat split.
Qed.

(** X3. [JNI_OnLoad] stops at the first step that fails.  If [GetEnv]
    refuses version 1.6, nothing else is called and no static is
    assigned.  If the class is missing, [FindClass] and one
    [ExceptionCheck] are the last calls, the class static is [NULL] and no
    method is looked up.  If [array] is missing, [arrayOffset] and
    [remaining] are not looked up and their statics keep their values.  In
    the last two cases the exception is left pending. *)
Theorem JNI_OnLoad_fail_fast v :
  vm_pending v = false →
  let v' := (JNI_OnLoad v).2 in
  (vm_env v JNI_VERSION_1_6 ≠ JNI_OK →
     v' = vm_called (VGetEnv JNI_VERSION_1_6) v) ∧
  (vm_env v JNI_VERSION_1_6 = JNI_OK →
   vm_classes v !! "java/nio/ByteBuffer" = None →
     vm_log v' =
       vm_log v ++ [VGetEnv JNI_VERSION_1_6;
                    VFindClass "java/nio/ByteBuffer"; VExceptionCheck] ∧
     cached_class v' = None ∧
     cached_array v' = cached_array v ∧
     cached_array_offset v' = cached_array_offset v ∧
     cached_remaining v' = cached_remaining v ∧
     vm_pending v' = true) ∧
  (vm_env v JNI_VERSION_1_6 = JNI_OK →
   is_Some (vm_classes v !! "java/nio/ByteBuffer") →
   method_of v (Some "java/nio/ByteBuffer") "array" "()[B" = None →
     vm_log v' =
       vm_log v ++ [VGetEnv JNI_VERSION_1_6;
                    VFindClass "java/nio/ByteBuffer"; VExceptionCheck;
                    VGetMethodID (Some "java/nio/ByteBuffer") "array" "()[B";
                    VExceptionCheck] ∧
     cached_array v' = None ∧
     cached_array_offset v' = cached_array_offset v ∧
     cached_remaining v' = cached_remaining v ∧
     vm_pending v' = true).
Proof.
  intros Hp. onload_paths v.
  all: split; [intros; try done|split; intros; try done].
  all: try (by destruct (is_Some_None ltac:(eassumption))).
  all: try match goal with H : is_Some None |- _ =>
             by apply is_Some_None in H end.
  all: rewrite <- ?app_assoc; cbn; repeat split; done.
Qed.

(** ** Initialisation, again and again *)

Lemma sodium_1init_unfold w :
  sodium_1init w =
    if sodium_initialized w then (1, w)
    else if sodium_env_ok w
         then (0, set_sodium_initialized (λ _, true) w)
         else (-1, w).
Proof.
  unfold sodium_1init, sodium_init, mbind, M_bind, mret, M_ret.
  destruct (sodium_initialized w), (sodium_env_ok w); reflexivity.
Qed.

(** X4. Once libsodium is initialised, any number of further calls of
    [stodium_init] all return [0], any number of calls of [sodium_init]'s
    wrapper all return [1], and none of them changes anything. *)
Theorem init_stays_up n w :
  sodium_initialized w = true →
  repeatedly n stodium_1init w = (replicate n 0, w) ∧
  repeatedly n sodium_1init w = (replicate n 1, w).
Proof.
  intros Hi. induction n as [|n [IH1 IH2]]; [done|]. split.
  - cbn [repeatedly]. unfold mbind, M_bind, mret, M_ret in *.
    rewrite stodium_1init_unfold, Hi, IH1. done.
  - cbn [repeatedly]. unfold mbind, M_bind, mret, M_ret in *.
    rewrite sodium_1init_unfold, Hi, IH2. done.
Qed.

(** ** The constant getters *)

(** X5. A constant getter calls no JNI function and changes nothing; it
    returns the external constant itself when that fits a [jint], and the
    constant minus [2^32], a negative number, when the constant lies
    between [2^31] and [2^32]. *)
Theorem constant_getter c w :
  0 <= c < 2 ^ 32 →
  STODIUM_CONSTANT c w = ((if bool_decide (c < 2 ^ 31) then c else c - 2 ^ 32), w).
Proof.
  intros Hc. unfold STODIUM_CONSTANT, mret, M_ret. f_equal.
  unfold to_jint, wrap_signed.
  change (2 ^ (32 - 1)) with 2147483648.
  change (2 ^ 31) with 2147483648 in *.
  change (2 ^ 32) with 4294967296 in *.
  case_bool_decide.
  - rewrite Z.mod_small; lia.
  - replace (c + 2147483648) with ((c - 2147483648) + 1 * 4294967296) by lia.
    rewrite Z.mod_add by lia. rewrite Z.mod_small; lia.
Qed.

(** ** Direct and absent handles: nothing is copied *)

Lemma get_buffer_direct dst h w :
  direct_or_absent h →
  let r := stodium_get_buffer dst h w in
  content r.1 = address_of h ∧ offset r.1 = 0 ∧ is_direct r.1 = true ∧
  erase_logs r.2 = erase_logs w.
Proof.
  intros Hh. destruct h as [bb|]; cbn in Hh; run.
  - rewrite bool_decide_eq_true_2 by done. cbn. done.
  - done.
Qed.

Lemma release_output_direct h b w :
  is_direct b = true →
  erase_logs (stodium_release_output h b w).2 = erase_logs w.
Proof. intros Hd. run. rewrite Hd. done. Qed.

Lemma release_input_direct h b w :
  is_direct b = true →
  erase_logs (stodium_release_input h b w).2 = erase_logs w.
Proof. intros Hd. run. rewrite Hd. done. Qed.

Lemma extern_erase_logs f w :
  (extern f w).1 = (f (native w)).2 ∧
  erase_logs (extern f w).2 =
    set_native (λ _, (f (native w)).1) (erase_logs w).
Proof. run. destruct (f (native w)). done. Qed.

Lemma erase_logs_native w w' :
  erase_logs w' = erase_logs w → native w' = native w.
Proof. intros H. apply (f_equal native) in H. exact H. Qed.

Ltac direct_get h Hh :=
  match goal with
  | |- context [stodium_get_buffer ?d h ?w] =>
    let b := fresh "b" in let w' := fresh "w" in
    let G := fresh "G" in
    pose proof (get_buffer_direct d h w Hh) as G;
    destruct (stodium_get_buffer d h w) as [b w']; cbn [fst snd] in G;
    destruct G as (? & ? & ? & ?)
  end.

Ltac direct_call :=
  match goal with
  | |- context [extern ?f ?w] =>
    let st := fresh "st" in let w' := fresh "w" in
    let G := fresh "G" in
    pose proof (extern_erase_logs f w) as G;
    destruct (extern f w) as [st w']; cbn [fst snd] in G;
    destruct G as (? & ?)
  end.

Ltac direct_release :=
  match goal with
  | D : is_direct ?b = true |- context [stodium_release_output ?h ?b ?w] =>
    let w' := fresh "w" in let G := fresh "G" in
    pose proof (release_output_direct h b w D) as G;
    destruct (stodium_release_output h b w) as [[] w']; cbn [fst snd] in G
  | D : is_direct ?b = true |- context [stodium_release_input ?h ?b ?w] =>
    let w' := fresh "w" in let G := fresh "G" in
    pose proof (release_input_direct h b w D) as G;
    destruct (stodium_release_input h b w) as [[] w']; cbn [fst snd] in G
  end.

Ltac direct_finish w :=
  cbn; unfold AS_OUTPUT, AS_INPUT in *;
  repeat match goal with
         | H : content _ = _ |- _ => rewrite H in *; clear H
         | H : offset _ = _ |- _ => rewrite H in *; clear H
         end;
  rewrite ?Z.add_0_r in *;
  match goal with
  | H : ?st = (?f (native ?wk)).2 |- _ =>
    let Hn := fresh "Hn" in
    assert (native wk = native w) as Hn
      by (apply erase_logs_native; congruence);
    rewrite Hn in *; subst st
  end;
  split; [done | congruence].

(** X6. Zero copy.  When every handle of an invocation is absent or
    direct, the wrapper passes the primitive the direct addresses
    themselves ([NULL] for an absent handle) on the native memory as it
    is, returns its status, and apart from the logs the world afterwards
    is the world before with the native memory as the primitive left it:
    no array is pinned or written, no exception is raised. *)
Theorem direct_invocation_is_the_primitive dst src key constant priv pub w :
  direct_or_absent dst → direct_or_absent src → direct_or_absent key →
  direct_or_absent constant → direct_or_absent priv → direct_or_absent pub →
  (let p := crypto_core_hsalsa20 (address_of dst) (address_of src)
              (address_of key) (address_of constant) (native w) in
   let r := crypto_1core_1hsalsa20 dst src key constant w in
   r.1 = to_jint p.2 ∧ erase_logs r.2 = set_native (λ _, p.1) (erase_logs w))
  ∧
  (let p := crypto_scalarmult_curve25519 (address_of dst) (address_of priv)
              (address_of pub) (native w) in
   let r := crypto_1scalarmult_1curve25519 dst priv pub w in
   r.1 = to_jint p.2 ∧ erase_logs r.2 = set_native (λ _, p.1) (erase_logs w))
  ∧
  (let p := crypto_scalarmult_curve25519_base (address_of dst)
              (address_of src) (native w) in
   let r := crypto_1scalarmult_1curve25519_1base dst src w in
   r.1 = to_jint p.2 ∧ erase_logs r.2 = set_native (λ _, p.1) (erase_logs w)).
Proof.
  intros Hdst Hsrc Hkey Hconst Hpriv Hpub. split; [|split]; open_wrapper.
  - direct_get dst Hdst. direct_get src Hsrc. direct_get key Hkey.
    direct_get constant Hconst. direct_call. do 4 direct_release.
    direct_finish w.
  - direct_get dst Hdst. direct_get priv Hpriv. direct_get pub Hpub.
    direct_call. do 3 direct_release. direct_finish w.
  - direct_get dst Hdst. direct_get src Hsrc.
    direct_call. do 2 direct_release. direct_finish w.
Qed.

(** ** What an invocation leaves alone *)

Lemma get_buffer_keeps dst h w :
  let r := stodium_get_buffer dst h w in
  arrays r.2 = arrays w ∧
  sodium_initialized r.2 = sodium_initialized w ∧
  sodium_env_ok r.2 = sodium_env_ok w ∧
  (pending w = true → pending r.2 = true).
Proof. crunch. Qed.

Lemma get_buffer_backing dst h w :
  let r := stodium_get_buffer dst h w in
  is_direct r.1 = true ∨
  ∃ bb, h = Some bb ∧ backing_array r.1 = jvalue (bb_array bb).
Proof.
  run. destruct h as [bb|]; cbn; [|by left].
  case_bool_decide; cbn; [by left|].
  right. exists bb. split; [done|].
  repeat (case_match; cbn in *; simplify_eq); done.
Qed.

Lemma extern_keeps f w :
  arrays (extern f w).2 = arrays w ∧
  sodium_initialized (extern f w).2 = sodium_initialized w ∧
  sodium_env_ok (extern f w).2 = sodium_env_ok w ∧
  (pending w = true → pending (extern f w).2 = true).
Proof. crunch. Qed.

Lemma release_input_keeps h b w :
  let w' := (stodium_release_input h b w).2 in
  arrays w' = arrays w ∧
  sodium_initialized w' = sodium_initialized w ∧
  sodium_env_ok w' = sodium_env_ok w ∧
  (pending w = true → pending w' = true).
Proof. crunch. Qed.

Lemma release_output_keeps h b w :
  let w' := (stodium_release_output h b w).2 in
  (∀ r, is_direct b = true ∨ backing_array b ≠ r →
        arrays w' !! r = arrays w !! r) ∧
  sodium_initialized w' = sodium_initialized w ∧
  sodium_env_ok w' = sodium_env_ok w ∧
  (pending w = true → pending w' = true).
Proof.
  run. destruct (is_direct b) eqn:Hd; cbn; [done|].
  repeat (case_match; cbn in *; simplify_eq); repeat split; try done.
  intros r [?|Hr]; [done|]. by rewrite lookup_insert_ne.
Qed.

Ltac keeps_step :=
  match goal with
  | |- context [stodium_get_buffer ?d ?h ?w] =>
    let b := fresh "b" in let w' := fresh "w" in
    pose proof (get_buffer_keeps d h w) as (? & ? & ? & ?);
    pose proof (get_buffer_backing d h w);
    destruct (stodium_get_buffer d h w) as [b w']; cbn [fst snd] in *
  | |- context [extern ?f ?w] =>
    let st := fresh "st" in let w' := fresh "w" in
    pose proof (extern_keeps f w) as (? & ? & ? & ?);
    destruct (extern f w) as [st w']; cbn [fst snd] in *
  | |- context [stodium_release_output ?h ?b ?w] =>
    let w' := fresh "w" in
    pose proof (release_output_keeps h b w) as (? & ? & ? & ?);
    destruct (stodium_release_output h b w) as [[] w']; cbn [fst snd] in *
  | |- context [stodium_release_input ?h ?b ?w] =>
    let w' := fresh "w" in
    pose proof (release_input_keeps h b w) as (? & ? & ? & ?);
    destruct (stodium_release_input h b w) as [[] w']; cbn [fst snd] in *
  end.

(** X7. An invocation never clears a pending Java exception and never
    touches libsodium's initialisation state: the wrappers neither
    initialise the library nor look at whether it is initialised. *)
Theorem invocation_keeps_exception_and_library dst src key constant priv pub w :
  (let r := crypto_1core_1hsalsa20 dst src key constant w in
   sodium_initialized r.2 = sodium_initialized w ∧
   sodium_env_ok r.2 = sodium_env_ok w ∧
   (pending w = true → pending r.2 = true)) ∧
  (let r := crypto_1scalarmult_1curve25519 dst priv pub w in
   sodium_initialized r.2 = sodium_initialized w ∧
   sodium_env_ok r.2 = sodium_env_ok w ∧
   (pending w = true → pending r.2 = true)) ∧
  (let r := crypto_1scalarmult_1curve25519_1base dst src w in
   sodium_initialized r.2 = sodium_initialized w ∧
   sodium_env_ok r.2 = sodium_env_ok w ∧
   (pending w = true → pending r.2 = true)).
Proof.
  split; [|split]; open_wrapper; repeat keeps_step; cbn.
  all: repeat split; try congruence; auto 20.
Qed.

(** X8. The only Java array an invocation can change is the backing array
    of its output handle: an array that is not the one [dst]'s [array()]
    returns holds after the invocation what it held before.  In
    particular the arrays behind the inputs are never written back. *)
Theorem only_output_array_changes dst src key constant priv pub w r :
  (∀ bb, dst = Some bb → jvalue (bb_array bb) ≠ r) →
  arrays (crypto_1core_1hsalsa20 dst src key constant w).2 !! r
    = arrays w !! r ∧
  arrays (crypto_1scalarmult_1curve25519 dst priv pub w).2 !! r
    = arrays w !! r ∧
  arrays (crypto_1scalarmult_1curve25519_1base dst src w).2 !! r
    = arrays w !! r.
Proof.
  intros Hr. split; [|split]; open_wrapper; repeat keeps_step; cbn.
  all: match goal with
       | H : ∀ r, is_direct ?b = true ∨ backing_array ?b ≠ r → _,
         B : is_direct ?b = true ∨ _ |- _ =>
         let E := fresh "E" in
         assert (is_direct b = true ∨ backing_array b ≠ r) as E
           by (destruct B as [?|(bb & -> & ->)];
               [by left | right; by apply Hr]);
         specialize (H r E)
       end.
  all: congruence.
Qed.

(** X9. No pinned copy outlives an invocation: from a world in which
    [NULL] is not handed out and live copies lie below the next one, the
    table of pinned copies is after each of the three wrappers what it was
    before, whatever the handles, the failures of the runtime and the
    primitive. *)
Theorem no_pin_outlives_invocation dst src key constant priv pub w :
  pins_in_range w →
  pins (crypto_1core_1hsalsa20 dst src key constant w).2 = pins w ∧
  pins (crypto_1scalarmult_1curve25519 dst priv pub w).2 = pins w ∧
  pins (crypto_1scalarmult_1curve25519_1base dst src w).2 = pins w.
Proof.
  intros Hw. split; [|split].
  - by apply no_pin_outlives_hsalsa20.
  - by apply no_pin_outlives_scalarmult.
  - by apply no_pin_outlives_scalarmult_base.
Qed.

(** ** Round trips through a pinned copy *)

Lemma read_bytes_length m a n : length (read_bytes m a n) = n.
Proof.
  revert a. induction n as [|n IH]; intros a; simpl; [done|]. by rewrite IH.
Qed.

Lemma write_bytes_lookup a bs m k :
  write_bytes a bs m !! k =
    if decide (a <= k < a + Z.of_nat (length bs))
    then bs !! Z.to_nat (k - a) else m !! k.
Proof.
  revert a. induction bs as [|b bs IH]; intros a; cbn [write_bytes length].
  - case_decide; [lia|done].
  - destruct (decide (a = k)) as [->|Hne].
    + rewrite lookup_insert_eq. rewrite decide_True by lia.
      by rewrite Z.sub_diag.
    + rewrite lookup_insert_ne by done. rewrite IH.
      repeat case_decide; try lia; [|done].
      replace (Z.to_nat (k - a)) with (S (Z.to_nat (k - (a + 1)))) by lia.
      done.
Qed.

Lemma read_splice a off old out m :
  0 <= off → off + Z.of_nat (length out) <= Z.of_nat (length old) →
  read_bytes (write_bytes (a + off) out (write_bytes a old m)) a (length old)
    = splice old (Z.to_nat off) out.
Proof.
  intros Hoff Hfit. apply list_eq. intros i. unfold splice.
  destruct (decide (i < length old)%nat) as [Hi|Hi].
  - rewrite read_bytes_lookup by done. rewrite !write_bytes_lookup.
    destruct (decide (i < Z.to_nat off)%nat) as [Hlo|Hlo].
    + rewrite decide_False by lia. rewrite decide_True by lia.
      rewrite lookup_app_l by (rewrite length_take; lia).
      rewrite lookup_take_lt by done.
      replace (Z.to_nat (a + Z.of_nat i - a)) with i by lia.
      destruct (lookup_lt_is_Some_2 old i Hi) as [x ->]. done.
    + rewrite lookup_app_r by (rewrite length_take; lia).
      rewrite length_take, Nat.min_l by lia.
      destruct (decide (i < Z.to_nat off + length out)%nat) as [Hmid|Hhi].
      * rewrite decide_True by lia.
        rewrite lookup_app_l by lia.
        replace (Z.to_nat (a + Z.of_nat i - (a + off)))
          with (i - Z.to_nat off)%nat by lia.
        destruct (lookup_lt_is_Some_2 out (i - Z.to_nat off)) as [x ->];
          [lia|done].
      * rewrite decide_False by lia. rewrite decide_True by lia.
        rewrite lookup_app_r by lia. rewrite lookup_drop.
        replace (Z.to_nat (a + Z.of_nat i - a)) with i by lia.
        replace (Z.to_nat off + length out +
                 (i - Z.to_nat off - length out))%nat with i by lia.
        destruct (lookup_lt_is_Some_2 old i Hi) as [x ->]. done.
  - rewrite !lookup_ge_None_2; [done| |].
    + rewrite !length_app, length_take, length_drop. lia.
    + rewrite read_bytes_length. lia.
Qed.

(** The three things a resolution can do to the pinned copies, with what
    the copy holds. *)
Lemma get_buffer_copy dst h w :
  let r := stodium_get_buffer dst h w in
  (pins r.2 = pins w ∧ native r.2 = native w ∧
   (is_direct r.1 = true ∨ content r.1 = 0)) ∨
  (∃ bs, arrays w !! backing_array r.1 = Some bs ∧
         pins r.2 = <[brk w := (backing_array r.1, length bs)]> (pins w) ∧
         native r.2 = write_bytes (brk w) bs (native w) ∧
         is_direct r.1 = false ∧ content r.1 = brk w).
Proof.
  run. repeat (case_match; cbn in *; simplify_eq).
  all: try (left; repeat split; auto; done).
  all: right; eexists; repeat split; done.
Qed.

Lemma release_output_commit h b w n :
  is_direct b = false →
  pins w !! content b = Some (backing_array b, n) →
  arrays (stodium_release_output h b w).2 =
    <[backing_array b := read_bytes (native w) (content b) n]> (arrays w) ∧
  pins (stodium_release_output h b w).2 = delete (content b) (pins w).
Proof.
  intros Hd Hp. run. rewrite Hd. cbn. rewrite Hp.
  rewrite bool_decide_eq_true_2 by done. done.
Qed.

Lemma release_output_nothing h b w :
  is_direct b = true ∨ pins w !! content b = None →
  arrays (stodium_release_output h b w).2 = arrays w ∧
  pins (stodium_release_output h b w).2 = pins w.
Proof.
  intros [Hd|Hp]; run.
  - rewrite Hd. done.
  - destruct (is_direct b); cbn; [done|]. rewrite Hp. done.
Qed.

(** X11. Resolve, then release as output with nothing written in between:
    the Java arrays and the table of pinned copies are what they were; the
    copy written back is the copy taken. *)
Theorem resolve_release_output_untouched dst h w :
  pins_in_range w →
  let r := stodium_get_buffer dst h w in
  let w' := (stodium_release_output h r.1 r.2).2 in
  arrays w' = arrays w ∧ pins w' = pins w.
Proof.
  intros Hw. destruct (pins_in_range_fresh w Hw) as [H0 Hfresh].
  destruct Hw as [Hbrk _]. cbn zeta.
  pose proof (get_buffer_keeps dst h w) as (Ha & _).
  pose proof (get_buffer_copy dst h w) as Hp.
  destruct (stodium_get_buffer dst h w) as [b w1]. cbn [fst snd] in *.
  destruct Hp as [(E & N & U)|(bs & Hbs & E & N & D & C)].
  - destruct (release_output_nothing h b w1) as [-> ->]; [|by rewrite Ha, E].
    destruct U as [U|U]; [by left|right]. by rewrite U, E.
  - destruct (release_output_commit h b w1 (length bs) D) as [-> ->].
    { rewrite C, E. apply lookup_insert_eq. }
    rewrite C, N, E, Ha, read_write_bytes. split.
    + by apply insert_id.
    + apply delete_insert_id, Hfresh. lia.
Qed.

(** What resolution gives for a heap buffer whose array the VM pins. *)
Lemma get_buffer_pinned dst bb w arr off old k :
  32 <= size_bits → java_nat off →
  direct_address bb = 0 → bb_array bb = Some arr →
  bb_arrayOffset bb = Some off →
  arrays w !! arr = Some old → pin_budget w = S k →
  let r := stodium_get_buffer dst (Some bb) w in
  is_direct r.1 = false ∧ content r.1 = brk w ∧ offset r.1 = off ∧
  backing_array r.1 = arr ∧ arrays r.2 = arrays w ∧
  pins r.2 = <[brk w := (arr, length old)]> (pins w) ∧
  native r.2 = write_bytes (brk w) old (native w).
Proof.
  intros Hbits Hoff Ha Harr Hofs Hold Hk.
  assert (to_size_t (to_jint off) = off) as Ecast.
  { unfold to_size_t. rewrite to_jint_java_nat by done.
    by apply wrap_unsigned_id. }
  run. rewrite bool_decide_eq_false_2 by (intros ?; done). cbn.
  rewrite Harr. cbn. rewrite Hold, Hk. cbn. rewrite Hofs. cbn.
  destruct (bb_remaining bb); cbn; rewrite Ecast; done.
Qed.

(** X12. Pinned commit round trip.  Resolve a heap buffer whose array the
    VM pins, write [out] at the view's address [content + offset] without
    running past the end of the array, release as output: the array is
    then the old array with [out] written over it from the buffer's array
    offset on, no other array has changed and the pin is gone. *)
Theorem pinned_commit_round_trip dst h bb w arr off old k out :
  32 <= size_bits → java_nat off →
  direct_address bb = 0 → bb_array bb = Some arr →
  bb_arrayOffset bb = Some off →
  arrays w !! arr = Some old → pin_budget w = S k →
  pins w !! brk w = None →
  off + Z.of_nat (length out) <= Z.of_nat (length old) →
  let r := stodium_get_buffer dst (Some bb) w in
  let w' := (stodium_release_output h r.1
               (set_native (write_bytes (AS_OUTPUT r.1) out) r.2)).2 in
  arrays w' = <[arr := splice old (Z.to_nat off) out]> (arrays w) ∧
  pins w' = pins w.
Proof.
  intros Hbits Hoff Ha Harr Hofs Hold Hk Hfresh Hfit. cbn zeta.
  pose proof (get_buffer_pinned dst bb w arr off old k Hbits Hoff Ha Harr
                Hofs Hold Hk) as (D & C & O & B & A & P & N).
  destruct (stodium_get_buffer dst (Some bb) w) as [b w1].
  cbn [fst snd] in *.
  destruct (release_output_commit h b
              (set_native (write_bytes (AS_OUTPUT b) out) w1)
              (length old) D) as [-> ->].
  { cbn. rewrite C, P, B. apply lookup_insert_eq. }
  cbn. unfold AS_OUTPUT. rewrite C, O, B, A, P, N. split.
  - f_equal. apply read_splice; [|done]. unfold java_nat in Hoff. lia.
  - by apply delete_insert_id.
Qed.

(** X13. A pin request the VM cannot serve.  Resolution of a heap buffer
    then yields a view that is not direct, with a [NULL] base pointer and
    an exception pending.  Released as an input, that view causes no JNI
    call and no change; released as an output, it makes the bridge call
    [ReleaseByteArrayElements] with a [NULL] elements pointer. *)
Theorem failed_pin_view dst bb w arr bs :
  direct_address bb = 0 → bb_array bb = Some arr →
  arrays w !! arr = Some bs → pin_budget w = O →
  let r := stodium_get_buffer dst (Some bb) w in
  is_direct r.1 = false ∧ content r.1 = 0 ∧ backing_array r.1 = arr ∧
  pending r.2 = true ∧ pins r.2 = pins w ∧ arrays r.2 = arrays w ∧
  ∀ output w',
    forget_calls (stodium_release_input output r.1 w').2 = forget_calls w' ∧
    jni_log (stodium_release_output output r.1 w').2 =
      jni_log w' ++ [JReleaseByteArrayElements arr 0 0].
Proof.
  intros Ha Harr Hbs Hk. cbn zeta.
  assert (let r := stodium_get_buffer dst (Some bb) w in
          is_direct r.1 = false ∧ content r.1 = 0 ∧ backing_array r.1 = arr ∧
          pending r.2 = true ∧ pins r.2 = pins w ∧ arrays r.2 = arrays w)
    as (D & C & B & P & Q & A).
  { run. rewrite bool_decide_eq_false_2 by (intros ?; done). cbn.
    rewrite Harr. cbn. rewrite Hbs, Hk. cbn.
    destruct (bb_arrayOffset bb), (bb_remaining bb); cbn; done. }
  destruct (stodium_get_buffer dst (Some bb) w) as [b w1].
  cbn [fst snd] in *. do 6 (split; [done|]).
  intros output w'. split.
  - unfold stodium_release_input, enter, modify, mbind, M_bind, mret, M_ret.
    rewrite D, C. done.
  - unfold stodium_release_output, ReleaseByteArrayElements, enter, modify,
      mbind, M_bind, mret, M_ret.
    rewrite D, C, B. cbn.
    repeat (case_match; cbn in *; simplify_eq); by rewrite <- ?app_assoc.
Qed.


(** ** An invocation whose output is a heap buffer *)

Lemma erase_logs_fields w w' :
  erase_logs w' = erase_logs w →
  arrays w' = arrays w ∧ pins w' = pins w ∧ native w' = native w.
Proof.
  intros H. repeat split.
  - exact (f_equal arrays H).
  - exact (f_equal pins H).
  - exact (f_equal native H).
Qed.

Lemma extern_fields f w :
  (extern f w).1 = (f (native w)).2 ∧
  arrays (extern f w).2 = arrays w ∧ pins (extern f w).2 = pins w ∧
  native (extern f w).2 = (f (native w)).1.
Proof. run. destruct (f (native w)). done. Qed.

Ltac heap_get bb Hbits Hoff Ha Harr Hofs Hold Hk :=
  match goal with
  | |- context [stodium_get_buffer ?d (Some bb) ?w] =>
    let b := fresh "b" in let w' := fresh "w" in
    pose proof (get_buffer_pinned d bb w _ _ _ _ Hbits Hoff Ha Harr Hofs
                  Hold Hk) as (? & ? & ? & ? & ? & ? & ?);
    destruct (stodium_get_buffer d (Some bb) w) as [b w'];
    cbn [fst snd] in *
  end.

Ltac input_get h Hh :=
  match goal with
  | |- context [stodium_get_buffer ?d h ?w] =>
    let b := fresh "b" in let w' := fresh "w" in
    let G := fresh "G" in
    pose proof (get_buffer_direct d h w Hh) as G;
    destruct (stodium_get_buffer d h w) as [b w']; cbn [fst snd] in G;
    destruct G as (? & ? & ? & G);
    apply erase_logs_fields in G; destruct G as (? & ? & ?)
  end.

Ltac heap_call :=
  match goal with
  | |- context [extern ?f ?w] =>
    let st := fresh "st" in let w' := fresh "w" in
    pose proof (extern_fields f w) as (? & ? & ? & ?);
    destruct (extern f w) as [st w']; cbn [fst snd] in *
  end.

Ltac heap_release n :=
  match goal with
  | D : is_direct ?b = false |- context [stodium_release_output ?h ?b ?w] =>
    let w' := fresh "w" in let G := fresh "G" in
    pose proof (release_output_commit h b w n D) as G;
    destruct (stodium_release_output h b w) as [[] w']; cbn [fst snd] in G
  end.

Ltac input_release :=
  match goal with
  | D : is_direct ?b = true |- context [stodium_release_input ?h ?b ?w] =>
    let w' := fresh "w" in let G := fresh "G" in
    pose proof (release_input_direct h b w D) as G;
    destruct (stodium_release_input h b w) as [[] w']; cbn [fst snd] in G;
    apply erase_logs_fields in G; destruct G as (? & ? & ?)
  end.

Ltac heap_finish w arr old Hfresh :=
  cbn; unfold AS_OUTPUT, AS_INPUT in *;
  repeat match goal with
         | H : content _ = _ |- _ => rewrite H in *; clear H
         | H : offset _ = _ |- _ => rewrite H in *; clear H
         | H : backing_array _ = _ |- _ => rewrite H in *; clear H
         end;
  rewrite ?Z.add_0_r in *;
  match goal with
  | G : pins ?wk !! brk w = Some _ → _ |- _ =>
    let GA := fresh "GA" in let GP := fresh "GP" in
    destruct G as [GA GP];
    [ replace (pins wk) with (<[brk w := (arr, length old)]> (pins w))
        by congruence;
      apply lookup_insert_eq
    | split; [|split];
      [ subst; congruence
      | congruence
      | transitivity (delete (brk w) (<[brk w := (arr, length old)]> (pins w)));
        [ congruence | by apply delete_insert_id ] ] ]
  end.

(** X14. An invocation with a heap buffer as output and absent or direct
    inputs.  The primitive runs on the native memory that holds the pinned
    copy of the output's array, with the copy's address plus the buffer's
    array offset as destination and the direct addresses as sources; the
    wrapper returns its status, the array afterwards holds what the
    primitive left in the copy, and the pin is gone. *)
Theorem heap_output_invocation bb src key constant priv pub w arr off old k :
  32 <= size_bits → java_nat off →
  direct_address bb = 0 → bb_array bb = Some arr →
  bb_arrayOffset bb = Some off →
  arrays w !! arr = Some old → pin_budget w = S k →
  pins w !! brk w = None →
  direct_or_absent src → direct_or_absent key → direct_or_absent constant →
  direct_or_absent priv → direct_or_absent pub →
  let copied := write_bytes (brk w) old (native w) in
  (let p := crypto_core_hsalsa20 (brk w + off) (address_of src)
              (address_of key) (address_of constant) copied in
   let r := crypto_1core_1hsalsa20 (Some bb) src key constant w in
   r.1 = to_jint p.2 ∧
   arrays r.2 = <[arr := read_bytes p.1 (brk w) (length old)]> (arrays w) ∧
   pins r.2 = pins w) ∧
  (let p := crypto_scalarmult_curve25519 (brk w + off) (address_of priv)
              (address_of pub) copied in
   let r := crypto_1scalarmult_1curve25519 (Some bb) priv pub w in
   r.1 = to_jint p.2 ∧
   arrays r.2 = <[arr := read_bytes p.1 (brk w) (length old)]> (arrays w) ∧
   pins r.2 = pins w) ∧
  (let p := crypto_scalarmult_curve25519_base (brk w + off)
              (address_of src) copied in
   let r := crypto_1scalarmult_1curve25519_1base (Some bb) src w in
   r.1 = to_jint p.2 ∧
   arrays r.2 = <[arr := read_bytes p.1 (brk w) (length old)]> (arrays w) ∧
   pins r.2 = pins w).
Proof.
  intros Hbits Hoff Ha Harr Hofs Hold Hk Hfresh Hsrc Hkey Hconst Hpriv Hpub.
  cbn zeta. split; [|split]; open_wrapper.
  - heap_get bb Hbits Hoff Ha Harr Hofs Hold Hk.
    input_get src Hsrc. input_get key Hkey. input_get constant Hconst.
    heap_call. heap_release (length old). do 3 input_release.
    heap_finish w arr old Hfresh.
  - heap_get bb Hbits Hoff Ha Harr Hofs Hold Hk.
    input_get priv Hpriv. input_get pub Hpub.
    heap_call. heap_release (length old). do 2 input_release.
    heap_finish w arr old Hfresh.
  - heap_get bb Hbits Hoff Ha Harr Hofs Hold Hk.
    input_get src Hsrc.
    heap_call. heap_release (length old). input_release.
    heap_finish w arr old Hfresh.
Qed.

(** ** The status of the primitive *)

(** The primitives return a C [int]. *)
Hypothesis hsalsa20_int :
  ∀ d s k c m, c_int (crypto_core_hsalsa20 d s k c m).2.
Hypothesis scalarmult_int :
  ∀ d s p m, c_int (crypto_scalarmult_curve25519 d s p m).2.
Hypothesis scalarmult_base_int :
  ∀ d s m, c_int (crypto_scalarmult_curve25519_base d s m).2.


End Bridge.

(** ** The bridge at concrete inputs

    Below, [size_t] has 64 bits, unassigned structs hold [junk], and the
    primitives are the stand-ins [prim_fail] and [prim_fill]. *)


(** The same when it is the pin request that fails: the VM is out of
    memory, [GetByteArrayElements] answers [NULL], and the primitive is
    called with a [NULL] base pointer. *)
Example primitive_called_after_failed_pin :
  let r := crypto_1scalarmult_1curve25519_1base 64 junk (λ _ _, prim_fail)
             None (Some (heap_buffer 1 0 32)) world_oom in
  r.1 = -1 ∧ pending r.2 = true ∧
  calls r.2 = invocation None [Some (heap_buffer 1 0 32)] (-1).
Proof. vm_compute. done. Qed.


(** The specification's sentence on the pinned commit does not hold: the
    pinned copy of [10; 20; 30; 40] was written to at index [3], past the
    window [1, 3), and the release as output carries that byte into the
    array. *)
Lemma commit_touches_window_only_refuted : ¬ commit_touches_window_only.
Proof.
  intros H.
  destruct (H None view_pinned world_pinned 4%nat [10; 20; 30; 40])
    as (new & Hnew & Hframe); [done..|].
  vm_compute in Hnew. injection Hnew as <-.
  specialize (Hframe 3%nat). cbn in Hframe.
  assert (Some 55 = Some 40) as Habs by (apply Hframe; right; lia).
  discriminate.
Qed.

(** Such a pinned copy arises from a wrapper: the window of [dst] has 16
    bytes, the primitive writes its 32 bytes of output, and bytes 16 to 31
    of the 40-byte backing array, which lie outside the window, change. *)
Example undersized_window_overwritten :
  let r := crypto_1scalarmult_1curve25519_1base 64 junk (λ d _, prim_fill d)
             (Some (heap_buffer 1 0 16)) None world_heap in
  arrays r.2 !! 1 = Some (replicate 32 170 ++ replicate 8 0) ∧ pins r.2 = ∅.
Proof. vm_compute. done. Qed.

(** No pinned copy outlives an invocation, here with [dst] and [key] two
    views of one array, a direct [src] and an absent [constant]; the
    output written through [dst] is in the array afterwards. *)
Example pins_released_after_invocation :
  let r := crypto_1core_1hsalsa20 64 junk (λ d _ _ _, prim_fill d)
             (Some (heap_buffer 1 8 32)) (Some (direct_buffer 5000 16))
             (Some (heap_buffer 1 0 8)) None world_heap in
  r.1 = 0 ∧ pins r.2 = ∅ ∧ pending r.2 = false ∧
  arrays r.2 !! 1 = Some (replicate 8 0 ++ replicate 32 170).
Proof. vm_compute. done. Qed.

Lemma release_output_commits_copy_witness :
  arrays (stodium_release_output None view_pinned world_pinned).2 !! 1
    = Some [10; 99; 77; 55] ∧
  pins (stodium_release_output None view_pinned world_pinned).2 !! 100 = None.
Proof.
  destruct (release_output_commits_copy 64 junk (λ _ _ _ _, prim_fail)
              (λ d _ _, prim_fill d) (λ d _, prim_fill d)
              None view_pinned world_pinned 4%nat eq_refl eq_refl)
    as (Ha & Hp & _).
  rewrite Ha, Hp. split; reflexivity.
Defined.

Lemma release_input_discards_witness :
  arrays (stodium_release_input None view_pinned world_pinned).2 !! 1
    = Some [10; 20; 30; 40] ∧
  pins (stodium_release_input None view_pinned world_pinned).2 !! 100 = None.
Proof.
  destruct (release_input_discards None view_pinned world_pinned eq_refl)
    as (Ha & Hp).
  rewrite Ha, (Hp 4%nat); [split; reflexivity| |reflexivity].
  intros Hc. discriminate Hc.
Defined.

Lemma get_buffer_shapes_witness :
  (let r := stodium_get_buffer 64 junk (Some (direct_buffer 5000 32))
              world_heap in
   is_direct r.1 = true ∧ offset r.1 = 0 ∧ capacity r.1 = 32 ∧
   content r.1 = 5000 ∧ pins r.2 = ∅) ∧
  (let r := stodium_get_buffer 64 junk (Some (heap_buffer 1 8 16))
              world_heap in
   is_direct r.1 = false ∧ backing_array r.1 = 1 ∧ offset r.1 = 8 ∧
   capacity r.1 = 16 ∧ content r.1 = 4096 ∧
   pins r.2 !! 4096 = Some (1, 40%nat)).
Proof.
  assert (32 <= 64) as Hbits by lia.
  assert (well_formed (direct_buffer 5000 32)) as Hwd.
  { unfold well_formed, java_nat. cbn. repeat split; intros; simplify_eq; lia. }
  assert (well_formed (heap_buffer 1 8 16)) as Hwh.
  { unfold well_formed, java_nat. cbn. repeat split; intros; simplify_eq; lia. }
  split.
  - destruct (get_buffer_shapes 64 junk (direct_buffer 5000 32) world_heap
                Hbits Hwd) as [Hd _].
    destruct Hd as (H1 & H2 & H3 & H4 & _ & H6 & _).
    { cbn. lia. }
    cbn zeta. rewrite H1, H2, H3, H4, H6. done.
  - destruct (get_buffer_shapes 64 junk (heap_buffer 1 8 16) world_heap
                Hbits Hwh) as [_ Hh].
    destruct Hh as (H1 & H2 & H3 & H4 & _ & H6); [reflexivity|].
    cbn zeta. rewrite H1, H2, H3, H4.
    destruct (H6 (replicate 40 0) 7%nat) as (H7 & H8 & _).
    { rewrite H2. reflexivity. }
    { reflexivity. }
    rewrite H7, H8, H2. done.
Defined.

Lemma init_twice_witness :
  (stodium_1init world0).1 = 0 ∧
  (stodium_1init (stodium_1init world0).2).1 = 0.
Proof.
  destruct (init_twice world0 (or_intror eq_refl)) as (H1 & H2 & _).
  split; [exact H1 | exact H2].
Defined.


Lemma release_totality_witness :
  pins (crypto_1core_1hsalsa20 64 junk (λ d _ _ _, prim_fill d)
          (Some (heap_buffer 1 8 32)) (Some (heap_buffer 1 0 16))
          (Some (heap_buffer 1 16 8)) None world_heap).2 = ∅.
Proof.
  assert (pins_in_range world_heap) as Hw.
  { split; [cbn; lia|]. intros a. right. apply lookup_empty. }
  destruct (release_totality 64 junk (λ d _ _ _, prim_fill d)
              (λ d _ _, prim_fill d) (λ d _, prim_fill d)
              (Some (heap_buffer 1 8 32)) (Some (heap_buffer 1 0 16))
              (Some (heap_buffer 1 16 8)) None None None world_heap)
    as (_ & Hpins).
  destruct (Hpins Hw) as (Hr & _). rewrite Hr. reflexivity.
Defined.

(** ** Loading, initialisation and round trips at concrete inputs *)

Lemma JNI_OnLoad_result_witness :
  (JNI_OnLoad vm_standard).1 = JNI_VERSION_1_6 ∧
  (JNI_OnLoad vm_without_nio).1 = -1 ∧
  (JNI_OnLoad vm_partial).1 = -1.
Proof.
  rewrite (JNI_OnLoad_result vm_standard eq_refl).
  rewrite (JNI_OnLoad_result vm_without_nio eq_refl).
  rewrite (JNI_OnLoad_result vm_partial eq_refl).
  repeat split.
Defined.

Lemma JNI_OnLoad_caches_ids_witness :
  let v' := (JNI_OnLoad vm_standard).2 in
  cached_array v' = Some stodium_g_byte_buffer_method_array ∧
  cached_array_offset v' = Some stodium_g_byte_buffer_method_array_offset ∧
  cached_remaining v' = Some stodium_g_byte_buffer_method_remaining.
Proof.
  destruct (JNI_OnLoad_caches_ids vm_standard eq_refl eq_refl)
    as (a & o & r & Hids & _ & Ha & Ho & Hr & _).
  vm_compute in Hids. injection Hids as <- <- <-.
  cbn zeta. rewrite Ha, Ho, Hr. repeat split.
Defined.

Lemma JNI_OnLoad_fail_fast_witness :
  let v' := (JNI_OnLoad vm_without_nio).2 in
  vm_log v' = [VGetEnv JNI_VERSION_1_6; VFindClass "java/nio/ByteBuffer";
               VExceptionCheck] ∧
  cached_array v' = None ∧ vm_pending v' = true.
Proof.
  destruct (JNI_OnLoad_fail_fast vm_without_nio eq_refl) as (_ & Hclass & _).
  destruct (Hclass eq_refl eq_refl) as (Hlog & _ & Ha & _ & _ & Hp).
  cbn zeta. rewrite Hlog, Ha, Hp. repeat split.
Defined.

Lemma init_stays_up_witness :
  repeatedly 3 stodium_1init world_ready = ([0; 0; 0], world_ready) ∧
  repeatedly 3 sodium_1init world_ready = ([1; 1; 1], world_ready).
Proof. exact (init_stays_up 3 world_ready eq_refl). Defined.

Lemma constant_getter_witness :
  STODIUM_CONSTANT 32 world0 = (32, world0) ∧
  STODIUM_CONSTANT 4294967295 world0 = (-1, world0).
Proof.
  split.
  - rewrite (constant_getter 32 world0) by (cbn; lia). reflexivity.
  - rewrite (constant_getter 4294967295 world0) by (cbn; lia). reflexivity.
Defined.

Lemma direct_invocation_is_the_primitive_witness :
  let r := crypto_1scalarmult_1curve25519_1base 64 junk (λ d _, prim_fill d)
             (Some (direct_buffer 5000 32)) (Some (direct_buffer 6000 32))
             world0 in
  r.1 = 0 ∧
  erase_logs r.2 =
    set_native (λ _, write_bytes 5000 (replicate 32 170) ∅)
      (erase_logs world0).
Proof.
  assert (direct_or_absent (Some (direct_buffer 5000 32))) as H1
    by (cbn; lia).
  assert (direct_or_absent (Some (direct_buffer 6000 32))) as H2
    by (cbn; lia).
  destruct (direct_invocation_is_the_primitive 64 junk
              (λ _ _ _ _, prim_fail) (λ d _ _, prim_fill d)
              (λ d _, prim_fill d)
              (Some (direct_buffer 5000 32)) (Some (direct_buffer 6000 32))
              None None None None world0 H1 H2 I I I I)
    as (_ & _ & Hr & Hw).
  cbn zeta. rewrite Hr, Hw. split; reflexivity.
Defined.

Lemma invocation_keeps_exception_and_library_witness :
  let w := set_pending (λ _, true) world_heap in
  let r := crypto_1scalarmult_1curve25519_1base 64 junk (λ d _, prim_fill d)
             (Some (heap_buffer 1 0 32)) None w in
  pending r.2 = true ∧ sodium_initialized r.2 = false.
Proof.
  destruct (invocation_keeps_exception_and_library 64 junk
              (λ _ _ _ _, prim_fail) (λ d _ _, prim_fill d)
              (λ d _, prim_fill d)
              (Some (heap_buffer 1 0 32)) None None None None None
              (set_pending (λ _, true) world_heap))
    as (_ & _ & Hi & _ & Hp).
  cbn zeta. rewrite Hi, (Hp eq_refl). split; reflexivity.
Defined.

Lemma only_output_array_changes_witness :
  arrays (crypto_1scalarmult_1curve25519_1base 64 junk (λ d _, prim_fill d)
            (Some (direct_buffer 5000 32)) (Some (heap_buffer 1 0 32))
            world_heap).2 !! 1
    = Some (replicate 40 0).
Proof.
  assert (∀ bb, Some (direct_buffer 5000 32) = Some bb →
                jvalue (bb_array bb) ≠ 1) as H.
  { intros bb Hbb. injection Hbb as <-. cbn. lia. }
  destruct (only_output_array_changes 64 junk
              (λ _ _ _ _, prim_fail) (λ d _ _, prim_fill d)
              (λ d _, prim_fill d)
              (Some (direct_buffer 5000 32)) (Some (heap_buffer 1 0 32))
              None None None None world_heap 1 H)
    as (_ & _ & Hr).
  rewrite Hr. reflexivity.
Defined.

Lemma pins_in_range_world_heap : pins_in_range world_heap.
Proof. split; [cbn; lia|]. intros a. right. apply lookup_empty. Defined.

Lemma no_pin_outlives_invocation_witness :
  pins (crypto_1core_1hsalsa20 64 junk (λ d _ _ _, prim_fill d)
          (Some (heap_buffer 1 8 32)) (Some (read_only_buffer 16))
          (Some (heap_buffer 1 0 8)) None world_heap).2 = ∅.
Proof.
  destruct (no_pin_outlives_invocation 64 junk
              (λ d _ _ _, prim_fill d) (λ d _ _, prim_fill d)
              (λ d _, prim_fill d)
              (Some (heap_buffer 1 8 32)) (Some (read_only_buffer 16))
              (Some (heap_buffer 1 0 8)) None None None world_heap
              pins_in_range_world_heap)
    as (Hr & _).
  rewrite Hr. reflexivity.
Defined.

Lemma resolve_release_output_untouched_witness :
  let r := stodium_get_buffer 64 junk (Some (heap_buffer 1 8 16))
             world_heap in
  let w' := (stodium_release_output (Some (heap_buffer 1 8 16)) r.1 r.2).2 in
  arrays w' = arrays world_heap ∧ pins w' = pins world_heap.
Proof.
  exact (resolve_release_output_untouched 64 junk
           (Some (heap_buffer 1 8 16)) world_heap pins_in_range_world_heap).
Defined.

Lemma pinned_commit_round_trip_witness :
  let r := stodium_get_buffer 64 junk (Some (heap_buffer 1 8 16))
             world_heap in
  let w' := (stodium_release_output None r.1
               (set_native (write_bytes (AS_OUTPUT r.1) [1; 2; 3]) r.2)).2 in
  arrays w' !! 1 = Some (replicate 8 0 ++ [1; 2; 3] ++ replicate 29 0) ∧
  pins w' = ∅.
Proof.
  assert (32 <= 64) as Hbits by lia.
  assert (java_nat 8) as Hoff by (unfold java_nat; lia).
  assert (8 + Z.of_nat (length [1; 2; 3]) <=
          Z.of_nat (length (replicate 40 0))) as Hfit by (cbn; lia).
  destruct (pinned_commit_round_trip 64 junk None (heap_buffer 1 8 16)
              world_heap 1 8 (replicate 40 0) 7 [1; 2; 3]
              Hbits Hoff eq_refl eq_refl eq_refl eq_refl eq_refl eq_refl
              Hfit) as (Ha & Hp).
  cbn zeta. rewrite Ha, Hp. split; reflexivity.
Defined.

Lemma failed_pin_view_witness :
  let r := stodium_get_buffer 64 junk (Some (heap_buffer 1 0 32))
             world_oom in
  content r.1 = 0 ∧ is_direct r.1 = false ∧ pending r.2 = true ∧
  jni_log (stodium_release_output None r.1 world_oom).2 =
    [JReleaseByteArrayElements 1 0 0].
Proof.
  destruct (failed_pin_view 64 junk (heap_buffer 1 0 32) world_oom 1
              (replicate 40 0) eq_refl eq_refl eq_refl eq_refl)
    as (Hd & Hc & _ & Hp & _ & _ & Hrel).
  destruct (Hrel None world_oom) as (_ & Hlog).
  cbn zeta. rewrite Hd, Hc, Hp, Hlog. repeat split.
Defined.

Lemma heap_output_invocation_witness :
  let r := crypto_1scalarmult_1curve25519_1base 64 junk (λ d _, prim_fill d)
             (Some (heap_buffer 1 8 32)) (Some (direct_buffer 6000 32))
             world_heap in
  r.1 = 0 ∧
  arrays r.2 !! 1 = Some (replicate 8 0 ++ replicate 32 170) ∧
  pins r.2 = ∅.
Proof.
  assert (32 <= 64) as Hbits by lia.
  assert (java_nat 8) as Hoff by (unfold java_nat; lia).
  assert (direct_or_absent (Some (direct_buffer 6000 32))) as Hsrc
    by (cbn; lia).
  destruct (heap_output_invocation 64 junk
              (λ d _ _ _, prim_fill d) (λ d _ _, prim_fill d)
              (λ d _, prim_fill d)
              (heap_buffer 1 8 32) (Some (direct_buffer 6000 32))
              None None None None world_heap 1 8 (replicate 40 0) 7
              Hbits Hoff eq_refl eq_refl eq_refl eq_refl eq_refl eq_refl
              Hsrc I I I I)
    as (_ & _ & Hr & Ha & Hp).
  cbn zeta. rewrite Hr, Ha, Hp. repeat split.
Defined.
